(** * Veracode Dynamic Analysis target URL extractor

    A shallow embedding of [veracode_target_urls.py] and the properties its
    specification states about it.

    The script talks to a remote API, prints to the console and writes one
    file.  The embedding threads a [world] (requests sent, console lines,
    file system) through a small state-and-exception monad; the remote API
    is a parameter [srv] that answers each request knowing the requests
    sent before it.

    Python values decoded from JSON are the inductive type [json]; Python
    [None] is [JNull].  Numbers are integers: floating point is outside the
    model.  A Python [str] is a [string], one character per code point
    below 256.  A [dict] is an association list in insertion order. *)

From Stdlib Require Import ZArith Ascii String List Bool Lia.
From Stdlib Require Import DecimalString DecimalZ DecimalPos DecimalFacts.
From stdpp Require Import base option list strings gmap.

Local Open Scope list_scope.

(** ** Values *)

Unset Elimination Schemes.
Inductive json : Type :=
| JNull
| JBool (b : bool)
| JNum (n : Z)
| JStr (s : string)
| JArr (items : list json)
| JObj (members : list (string * json)).
Set Elimination Schemes.

(** Induction over values, with the hypothesis for every element of a list
    and every member of an object. *)
Definition json_ind (P : json -> Prop)
    (Hnull : P JNull)
    (Hbool : forall b, P (JBool b))
    (Hnum : forall n, P (JNum n))
    (Hstr : forall s, P (JStr s))
    (Harr : forall items, Forall P items -> P (JArr items))
    (Hobj : forall members, Forall (fun kv => P (snd kv)) members -> P (JObj members))
    : forall v, P v :=
  fix IH (v : json) : P v :=
    match v with
    | JNull => Hnull
    | JBool b => Hbool b
    | JNum n => Hnum n
    | JStr s => Hstr s
    | JArr items =>
        Harr items
          ((fix all (l : list json) : Forall P l :=
              match l with
              | [] => List.Forall_nil P
              | x :: l' => @List.Forall_cons _ P x l' (IH x) (all l')
              end) items)
    | JObj members =>
        Hobj members
          ((fix all (l : list (string * json)) : Forall (fun kv => P (snd kv)) l :=
              match l with
              | [] => List.Forall_nil _
              | kv :: l' => @List.Forall_cons _ _ kv l' (IH (snd kv)) (all l')
              end) members)
    end.

(** Python exceptions the script can let escape.  [OtherError] is any
    exception of another class, by its name: the ones raised under the
    [try] of [_make_request] that are not a [RequestException]
    ([VeracodeCredentialsError] from the signing plugin, [ValueError] or
    [RecursionError] from [response.json()]). *)
Inductive exn : Type :=
| AttributeError
| TypeError
| KeyError
| UnboundLocalError
| OtherError (name : string).

Inductive pyresult (A : Type) : Type :=
| Ok (a : A)
| Raise (e : exn).
Arguments Ok {A} a.
Arguments Raise {A} e.

Definition rbind {A B} (r : pyresult A) (k : A -> pyresult B) : pyresult B :=
  match r with
  | Ok a => k a
  | Raise e => Raise e
  end.

(** The line feed, for the literals written ["\n"] in the script. *)
Definition NL : string := String (ascii_of_nat 10) EmptyString.

(** *** Python primitives on decoded values *)

(** [bool(v)]: the test of [if v:] and [if not v:]. *)
Definition truthy (v : json) : bool :=
  match v with
  | JNull => false
  | JBool b => b
  | JNum n => negb (Z.eqb n 0)
  | JStr s => negb (String.eqb s "")
  | JArr items => match items with [] => false | _ :: _ => true end
  | JObj members => match members with [] => false | _ :: _ => true end
  end.

(** Lookup in a dict in insertion order. *)
Fixpoint assoc {V : Type} (key : string) (members : list (string * V)) : option V :=
  match members with
  | [] => None
  | (k, v) :: rest => if String.eqb k key then Some v else assoc key rest
  end.

(** [v.get(key, default)]: only a dict has the method. *)
Definition py_get (v : json) (key : string) (default : json) : pyresult json :=
  match v with
  | JObj members =>
      match assoc key members with
      | Some x => Ok x
      | None => Ok default
      end
  | _ => Raise AttributeError
  end.

(** [len(v)]. *)
Definition py_len (v : json) : pyresult Z :=
  match v with
  | JStr s => Ok (Z.of_nat (String.length s))
  | JArr items => Ok (Z.of_nat (length items))
  | JObj members => Ok (Z.of_nat (length members))
  | _ => Raise TypeError
  end.

Fixpoint chars_of (s : string) : list json :=
  match s with
  | EmptyString => []
  | String c rest => JStr (String c EmptyString) :: chars_of rest
  end.

(** The items a [for x in v] loop visits: the elements of a list, the keys
    of a dict, the characters of a str. *)
Definition py_iter (v : json) : pyresult (list json) :=
  match v with
  | JArr items => Ok items
  | JObj members => Ok (map (fun kv => JStr (fst kv)) members)
  | JStr s => Ok (chars_of s)
  | _ => Raise TypeError
  end.

(** ** Formatted text

    An f-string is kept as its pieces: literal text and the values it
    interpolates (rendered by [str()] when printed). *)

Inductive piece : Type :=
| Lit (s : string)
| Interp (v : json).

Definition fstring : Type := list piece.

(** ** The remote API *)

(** What the body of the [try] in [_make_request] comes to: the decoded
    body, a [RequestException] with its message and the text of its
    response if it has one, or an exception of another class (the
    credentials error of the signing plugin, the [ValueError] of
    [response.json()] where the decoding error is not a
    [RequestException]). *)
Inductive http_outcome : Type :=
| HttpOk (body : json)
| HttpFail (err : string) (response_text : option string)
| HttpRaise (e : exn).

Record request : Type := Request {
  req_method : string;
  req_url : fstring;
  req_data : option json
}.

(** The API answers a request knowing the requests sent before it. *)
Definition server : Type := list request -> request -> http_outcome.

(** ** The world the script acts on *)

Record world : Type := World {
  requests : list request;
  console : list fstring;
  opened : list string;
  files : gmap string string
}.

Definition M (A : Type) : Type := world -> pyresult A * world.

Definition ret {A} (a : A) : M A := fun w => (Ok a, w).

Definition raise {A} (e : exn) : M A := fun w => (Raise e, w).

Definition bind {A B} (m : M A) (k : A -> M B) : M B :=
  fun w =>
    match m w with
    | (Ok a, w') => k a w'
    | (Raise e, w') => (Raise e, w')
    end.

Definition lift {A} (r : pyresult A) : M A :=
  fun w => (r, w).

#[global] Instance pyresult_bind : MBind pyresult := fun A B k r => rbind r k.
#[global] Instance pyresult_ret : MRet pyresult := fun A a => Ok a.
#[global] Instance M_bind : MBind M := fun A B k m => bind m k.
#[global] Instance M_ret : MRet M := fun A a => ret a.

(** [print(line)] *)
Definition print (line : fstring) : M unit :=
  fun w => (Ok tt, World (requests w) (console w ++ [line]) (opened w) (files w)).

Definition send (srv : server) (r : request) : M http_outcome :=
  fun w => (Ok (srv (requests w) r),
            World (requests w ++ [r]) (console w) (opened w) (files w)).

(** [with open(path, 'w') as f: f.write(text)] *)
Definition write_file (path text : string) : M unit :=
  fun w => (Ok tt, World (requests w) (console w) (opened w ++ [path])
                         (<[path := text]> (files w))).

(** ** The result record: the dict literal of lines 105-115 *)

Record ResultRecord : Type := mkResult {
  analysis_id : json;
  analysis_name : json;
  application_name : json;
  scan_id : json;
  scan_config_name : json;
  target_url : json;
  latest_status : json;
  created_on : json;
  last_modified_on : json
}.

(** The items of the dict, in the order the literal lists them. *)
Definition record_items (r : ResultRecord) : list (string * json) :=
  [ ("analysis_id", analysis_id r);
    ("analysis_name", analysis_name r);
    ("application_name", application_name r);
    ("scan_id", scan_id r);
    ("scan_config_name", scan_config_name r);
    ("target_url", target_url r);
    ("latest_status", latest_status r);
    ("created_on", created_on r);
    ("last_modified_on", last_modified_on r) ].

Definition record_json (r : ResultRecord) : json := JObj (record_items r).

(** ** class VeracodeDynamicAnalysis *)

Section VeracodeDynamicAnalysis.

Variable srv : server.

Definition base_url : string := "https://api.veracode.com".

(** [_make_request]: a [RequestException] is caught, reported and turned
    into [None]; the [except] clause names no other class, so any other
    exception escapes. *)
Definition _make_request (method : string) (endpoint : fstring)
    (data : option json) : M json :=
  let url := Lit base_url :: endpoint in
  if String.eqb method "GET" || String.eqb method "POST" then
    response ← send srv (Request method url
                           (if String.eqb method "GET" then None else data));
    match response with
    | HttpOk body => ret body
    | HttpFail e text =>
        print [Lit "API request failed: "; Lit e];;
        match text with
        | Some t => print [Lit "Response: "; Lit t]
        | None => ret tt
        end;;
        ret JNull
    | HttpRaise e => raise e
    end
  else raise UnboundLocalError.

Definition analyses_endpoint : fstring := [Lit "/was/configservice/v1/analyses"].

Definition scans_endpoint (analysis_id : json) : fstring :=
  [Lit "/was/configservice/v1/analyses/"; Interp analysis_id; Lit "/scans"].

Definition get_all_analyses : M json :=
  print [Lit "Fetching all analyses..."];;
  _make_request "GET" analyses_endpoint None.

Definition get_analysis_scans (analysis_id : json) : M json :=
  print [Lit "Fetching scans for analysis ID: "; Interp analysis_id];;
  _make_request "GET" (scans_endpoint analysis_id) None.

(** The identifying fields of an analysis, lines 84-86. *)
Record analysis_fields : Type := AnalysisFields {
  af_id : json;
  af_name : json;
  af_app_name : json
}.

Definition read_analysis (analysis : json) : pyresult analysis_fields :=
  analysis_id ← py_get analysis "analysis_id" JNull;
  analysis_name ← py_get analysis "name" (JStr "Unknown");
  application ← py_get analysis "application" (JObj []);
  app_name ← py_get application "name" (JStr "Unknown");
  Ok (AnalysisFields analysis_id analysis_name app_name).

(** The body of the scans loop up to the append, lines 98-115: the record
    built for one scan, if any. *)
Definition scan_record (a : analysis_fields) (scan : json)
    : pyresult (option ResultRecord) :=
  target_url ← py_get scan "target_url" JNull;
  scan_id ← py_get scan "scan_id" JNull;
  application_name ← py_get scan "application_name" (af_app_name a);
  scan_config_name ← py_get scan "scan_config_name" (JStr "N/A");
  occurrence ← py_get scan "latest_occurrence_status" (JObj []);
  latest_status ← py_get occurrence "status_type" (JStr "Unknown");
  if truthy target_url then
    created_on ← py_get scan "created_on" (JStr "Unknown");
    last_modified_on ← py_get scan "last_modified_on" (JStr "Unknown");
    Ok (Some (mkResult (af_id a) (af_name a) application_name scan_id
                scan_config_name target_url latest_status
                created_on last_modified_on))
  else Ok None.

(** One turn of [for scan in scans], lines 97-118. *)
Definition scan_body (a : analysis_fields) (scan : json)
    (results : list ResultRecord) : M (list ResultRecord) :=
  found ← lift (scan_record a scan);
  match found with
  | Some r =>
      print [Lit "  Found target URL: "; Interp (target_url r)];;
      ret (results ++ [r])
  | None => ret results
  end.

Fixpoint scans_loop (a : analysis_fields) (scans : list json)
    (results : list ResultRecord) : M (list ResultRecord) :=
  match scans with
  | [] => ret results
  | scan :: rest =>
      results' ← scan_body a scan results;
      scans_loop a rest results'
  end.

(** [response.get('_embedded', {}).get(key, [])], lines 75 and 95. *)
Definition embedded_items (response : json) (key : string) : pyresult json :=
  embedded ← py_get response "_embedded" (JObj []);
  py_get embedded key (JArr []).

(** What the analyses loop does with the answer to the scans listing,
    lines 91-118. *)
Definition use_scans_response (a : analysis_fields) (scans_response : json)
    (results : list ResultRecord) : M (list ResultRecord) :=
  if negb (truthy scans_response) then
    print [Lit "  No scans found for analysis "; Interp (af_id a)];;
    ret results
  else
    scans ← lift (embedded_items scans_response "scans");
    items ← lift (py_iter scans);
    scans_loop a items results.

(** One turn of [for analysis in analyses], lines 83-118. *)
Definition analysis_body (analysis : json) (results : list ResultRecord)
    : M (list ResultRecord) :=
  a ← lift (read_analysis analysis);
  print [Lit NL; Lit "Processing analysis: "; Interp (af_name a);
         Lit " (ID: "; Interp (af_id a); Lit ", App: "; Interp (af_app_name a);
         Lit ")"];;
  scans_response ← get_analysis_scans (af_id a);
  use_scans_response a scans_response results.

Fixpoint analyses_loop (analyses : list json) (results : list ResultRecord)
    : M (list ResultRecord) :=
  match analyses with
  | [] => ret results
  | analysis :: rest =>
      results' ← analysis_body analysis results;
      analyses_loop rest results'
  end.

(** What the extraction does with the answer to the analyses listing,
    lines 71-120. *)
Definition use_analyses_response (analyses_response : json)
    (results : list ResultRecord) : M (list ResultRecord) :=
  if negb (truthy analyses_response) then
    print [Lit "Failed to fetch analyses"];;
    ret results
  else
    analyses ← lift (embedded_items analyses_response "analyses");
    if negb (truthy analyses) then
      print [Lit "No analyses found"];;
      ret results
    else
      n ← lift (py_len analyses);
      print [Lit "Found "; Interp (JNum n); Lit " analyses"];;
      items ← lift (py_iter analyses);
      analyses_loop items results.

Definition extract_target_urls : M (list ResultRecord) :=
  let results := [] in
  analyses_response ← get_all_analyses;
  use_analyses_response analyses_response results.

End VeracodeDynamicAnalysis.

(** ** The [json] module of the standard library

    [json.dump(obj, f, indent=2)] and [json.loads], after CPython's
    [json.encoder] and [json.decoder].  [None] stands for a
    [JSONDecodeError], and for text that denotes a value outside the model
    (a float, a code point above 255). *)

Module Json.

Definition quote : ascii := "034"%char.
Definition backslash : ascii := "092"%char.

Definition hex_digit (d : N) : ascii :=
  if (d <? 10)%N then ascii_of_N (48 + d) else ascii_of_N (87 + d).

(** ['{0:04x}'.format(n)] *)
Definition hex4 (n : N) : string :=
  String (hex_digit ((n / 4096) mod 16))
    (String (hex_digit ((n / 256) mod 16))
      (String (hex_digit ((n / 16) mod 16))
        (String (hex_digit (n mod 16)) EmptyString))).

(** The replacement of one character under [ESCAPE_ASCII]. *)
Definition escape_char (c : ascii) : string :=
  let n := N_of_ascii c in
  if Ascii.eqb c backslash then String backslash (String backslash EmptyString)
  else if Ascii.eqb c quote then String backslash (String quote EmptyString)
  else if (n =? 8)%N then String backslash "b"
  else if (n =? 12)%N then String backslash "f"
  else if (n =? 10)%N then String backslash "n"
  else if (n =? 13)%N then String backslash "r"
  else if (n =? 9)%N then String backslash "t"
  else if (32 <=? n)%N && (n <=? 126)%N then String c EmptyString
  else String backslash (String "u" (hex4 n)).

Fixpoint escape (s : string) : string :=
  match s with
  | EmptyString => EmptyString
  | String c rest => escape_char c +:+ escape rest
  end.

(** [py_encode_basestring_ascii] *)
Definition encode_basestring_ascii (s : string) : string :=
  String quote (escape s +:+ String quote EmptyString).

(** [int.__repr__].  The limit CPython puts on the digits of a conversion
    applies to the decoding of the response as well, so an integer past it
    is not received. *)
Definition int_repr (n : Z) : string := NilZero.string_of_int (Z.to_int n).

Fixpoint spaces (level : nat) : string :=
  match level with
  | O => EmptyString
  | S l => "  " +:+ spaces l
  end.

(** ['\n' + _indent * _current_indent_level] *)
Definition newline_indent (level : nat) : string := NL +:+ spaces level.

(** [_iterencode] with [indent=2], its chunks concatenated. *)
Fixpoint iterencode (o : json) (level : nat) {struct o} : string :=
  match o with
  | JStr s => encode_basestring_ascii s
  | JNull => "null"
  | JBool true => "true"
  | JBool false => "false"
  | JNum n => int_repr n
  | JArr [] => "[]"
  | JArr (first :: rest) =>
      "[" +:+ newline_indent (S level) +:+ iterencode first (S level)
      +:+ (fix more (l : list json) : string :=
             match l with
             | [] => EmptyString
             | x :: l' =>
                 "," +:+ newline_indent (S level) +:+ iterencode x (S level)
                 +:+ more l'
             end) rest
      +:+ newline_indent level +:+ "]"
  | JObj [] => "{}"
  | JObj ((key, value) :: rest) =>
      "{" +:+ newline_indent (S level)
      +:+ encode_basestring_ascii key +:+ ": " +:+ iterencode value (S level)
      +:+ (fix more (l : list (string * json)) : string :=
             match l with
             | [] => EmptyString
             | (k, v) :: l' =>
                 "," +:+ newline_indent (S level)
                 +:+ encode_basestring_ascii k +:+ ": " +:+ iterencode v (S level)
                 +:+ more l'
             end) rest
      +:+ newline_indent level +:+ "}"
  end.

(** The chunks [_iterencode_list] yields for the items after the first. *)
Definition more_items (level : nat) : list json -> string :=
  fix more (l : list json) : string :=
    match l with
    | [] => EmptyString
    | x :: l' =>
        "," +:+ newline_indent (S level) +:+ iterencode x (S level)
        +:+ more l'
    end.

(** The chunks [_iterencode_dict] yields for the members after the first. *)
Definition more_members (level : nat) : list (string * json) -> string :=
  fix more (l : list (string * json)) : string :=
    match l with
    | [] => EmptyString
    | (k, v) :: l' =>
        "," +:+ newline_indent (S level)
        +:+ encode_basestring_ascii k +:+ ": " +:+ iterencode v (S level)
        +:+ more l'
    end.

Definition dumps (obj : json) : string := iterencode obj 0.

(** *** Decoding *)

Definition is_ws (c : ascii) : bool :=
  let n := N_of_ascii c in
  (n =? 32)%N || (n =? 9)%N || (n =? 10)%N || (n =? 13)%N.

(** [WHITESPACE.match(s, end).end()] *)
Fixpoint skip_ws (s : string) : string :=
  match s with
  | EmptyString => EmptyString
  | String c rest => if is_ws c then skip_ws rest else s
  end.

Definition hex_value (c : ascii) : option N :=
  let n := N_of_ascii c in
  if (48 <=? n)%N && (n <=? 57)%N then Some (n - 48)%N
  else if (97 <=? n)%N && (n <=? 102)%N then Some (n - 87)%N
  else if (65 <=? n)%N && (n <=? 70)%N then Some (n - 55)%N
  else None.

(** [_decode_uXXXX]: four hexadecimal digits (the signs and underscores
    that [int(esc, 16)] would also accept are not modelled). *)
Definition decode_uXXXX (a b c d : ascii) : option N :=
  x3 ← hex_value a; x2 ← hex_value b; x1 ← hex_value c; x0 ← hex_value d;
  Some (x3 * 4096 + x2 * 256 + x1 * 16 + x0)%N.

(** The [BACKSLASH] table. *)
Definition unescape (esc : ascii) : option ascii :=
  let n := N_of_ascii esc in
  if Ascii.eqb esc quote then Some quote
  else if Ascii.eqb esc backslash then Some backslash
  else if Ascii.eqb esc "/" then Some "/"%char
  else if Ascii.eqb esc "b" then Some "008"%char
  else if Ascii.eqb esc "f" then Some "012"%char
  else if Ascii.eqb esc "n" then Some "010"%char
  else if Ascii.eqb esc "r" then Some "013"%char
  else if Ascii.eqb esc "t" then Some "009"%char
  else None.

(** [py_scanstring] (strict), from just after the opening quote: the
    decoded string and the text after the closing quote. *)
Fixpoint scanstring (s : string) : option (string * string) :=
  match s with
  | EmptyString => None
  | String c rest =>
      if Ascii.eqb c quote then Some (EmptyString, rest)
      else if Ascii.eqb c backslash then
        match rest with
        | EmptyString => None
        | String esc rest1 =>
            if Ascii.eqb esc "u" then
              match rest1 with
              | String x3 (String x2 (String x1 (String x0 rest2))) =>
                  uni ← decode_uXXXX x3 x2 x1 x0;
                  if (uni <? 256)%N then
                    '(tail, after) ← scanstring rest2;
                    Some (String (ascii_of_N uni) tail, after)
                  else None
              | _ => None
              end
            else
              char ← unescape esc;
              '(tail, after) ← scanstring rest1;
              Some (String char tail, after)
        end
      else if (N_of_ascii c <? 32)%N then None
      else
        '(tail, after) ← scanstring rest;
        Some (String c tail, after)
  end.

Definition is_digit (c : ascii) : bool :=
  let n := N_of_ascii c in (48 <=? n)%N && (n <=? 57)%N.

(** The longest run of digits at the head of [s], and what follows. *)
Fixpoint span_digits (s : string) : string * string :=
  match s with
  | EmptyString => (EmptyString, EmptyString)
  | String c rest =>
      if is_digit c then
        let '(ds, after) := span_digits rest in (String c ds, after)
      else (EmptyString, s)
  end.

(** The first group of [NUMBER_RE]: an optional minus sign, then a single
    zero or a non-zero digit followed by any digits. *)
Definition match_integer (s : string) : option (string * string) :=
  let '(sign, body) :=
    match s with
    | String "-" r => ("-", r)
    | _ => (EmptyString, s)
    end in
  match body with
  | EmptyString => None
  | String c r =>
      if Ascii.eqb c "0" then Some (sign +:+ "0", r)
      else if is_digit c then
        let '(ds, after) := span_digits r in Some (sign +:+ String c ds, after)
      else None
  end.

(** The second group of [NUMBER_RE] matches: a dot and a digit. *)
Definition has_frac (s : string) : bool :=
  match s with
  | String "." (String c _) => is_digit c
  | _ => false
  end.

(** The third group of [NUMBER_RE] matches: e or E, an optional sign and
    a digit. *)
Definition has_exp (s : string) : bool :=
  match s with
  | String e r =>
      if Ascii.eqb e "e" || Ascii.eqb e "E" then
        match r with
        | String c r' =>
            if Ascii.eqb c "-" || Ascii.eqb c "+" then
              match r' with
              | String d _ => is_digit d
              | EmptyString => false
              end
            else is_digit c
        | EmptyString => false
        end
      else false
  | EmptyString => false
  end.

(** [int(integer)] on the text of the first group. *)
Definition parse_int (integer : string) : option Z :=
  Z.of_int <$> NilZero.int_of_string integer.

(** [match_number] and the conversion of an integer literal. *)
Definition scan_number (s : string) : option (json * string) :=
  '(integer, after) ← match_integer s;
  if has_frac after || has_exp after then None
  else n ← parse_int integer; Some (JNum n, after).

(** [s[idx:idx + len(word)] == word], and the text after it. *)
Fixpoint strip_prefix (word s : string) : option string :=
  match word with
  | EmptyString => Some s
  | String c word' =>
      match s with
      | EmptyString => None
      | String d s' => if Ascii.eqb c d then strip_prefix word' s' else None
      end
  end.

(** [dict(pairs)]: a later pair with the same key replaces the value and
    keeps the place of the first. *)
Fixpoint dict_put (key : string) (value : json) (d : list (string * json))
    : list (string * json) :=
  match d with
  | [] => [(key, value)]
  | (k, v) :: rest =>
      if String.eqb k key then (k, value) :: rest
      else (k, v) :: dict_put key value rest
  end.

Definition dict_of_pairs (pairs : list (string * json)) : list (string * json) :=
  fold_left (fun d kv => dict_put (fst kv) (snd kv) d) pairs [].

(** [scan_once], [JSONArray] and [JSONObject].  [fuel] bounds the number of
    nested calls; [loads] gives more than the text can use. *)
Fixpoint scan_once (fuel : nat) (s : string) {struct fuel} : option (json * string) :=
  match fuel with
  | O => None
  | S fuel' =>
      match s with
      | EmptyString => None
      | String c rest =>
          if Ascii.eqb c quote then
            '(str, after) ← scanstring rest; Some (JStr str, after)
          else if Ascii.eqb c "{" then
            match skip_ws rest with
            | String c1 rest1 =>
                if Ascii.eqb c1 "}" then Some (JObj [], rest1)
                else if Ascii.eqb c1 quote then object_loop fuel' rest1 []
                else None
            | EmptyString => None
            end
          else if Ascii.eqb c "[" then
            match skip_ws rest with
            | String c1 rest1 =>
                if Ascii.eqb c1 "]" then Some (JArr [], rest1)
                else array_loop fuel' (String c1 rest1) []
            | EmptyString => None
            end
          else if Ascii.eqb c "n" then
            after ← strip_prefix "null" s; Some (JNull, after)
          else if Ascii.eqb c "t" then
            after ← strip_prefix "true" s; Some (JBool true, after)
          else if Ascii.eqb c "f" then
            after ← strip_prefix "false" s; Some (JBool false, after)
          else scan_number s
      end
  end
with array_loop (fuel : nat) (s : string) (values : list json) {struct fuel}
    : option (json * string) :=
  match fuel with
  | O => None
  | S fuel' =>
      '(value, after) ← scan_once fuel' s;
      let values := values ++ [value] in
      match skip_ws after with
      | String c rest =>
          if Ascii.eqb c "]" then Some (JArr values, rest)
          else if Ascii.eqb c "," then array_loop fuel' (skip_ws rest) values
          else None
      | EmptyString => None
      end
  end
with object_loop (fuel : nat) (s : string) (pairs : list (string * json))
    {struct fuel} : option (json * string) :=
  match fuel with
  | O => None
  | S fuel' =>
      '(key, after_key) ← scanstring s;
      match skip_ws after_key with
      | String colon rest =>
          if Ascii.eqb colon ":" then
            '(value, after) ← scan_once fuel' (skip_ws rest);
            let pairs := pairs ++ [(key, value)] in
            match skip_ws after with
            | String c rest1 =>
                if Ascii.eqb c "}" then Some (JObj (dict_of_pairs pairs), rest1)
                else if Ascii.eqb c "," then
                  match skip_ws rest1 with
                  | String q rest2 =>
                      if Ascii.eqb q quote then object_loop fuel' rest2 pairs
                      else None
                  | EmptyString => None
                  end
                else None
            | EmptyString => None
            end
          else None
      | EmptyString => None
      end
  end.

(** [JSONDecoder.decode]: one value, surrounded by whitespace only. *)
Definition loads (s : string) : option json :=
  '(obj, after) ← scan_once (S (String.length s)) (skip_ws s);
  match skip_ws after with
  | EmptyString => Some obj
  | String _ _ => None
  end.

End Json.

(** ** A dict keyed by decoded values

    The keys of [apps] in [main] are the [application_name] values, which are
    whatever the API sent.  A list or a dict cannot be hashed; [True] and
    [1], [False] and [0] are equal keys. *)

Definition hashable (k : json) : bool :=
  match k with
  | JArr _ | JObj _ => false
  | _ => true
  end.

(** [a == b] on hashable values. *)
Definition key_eqb (a b : json) : bool :=
  match a, b with
  | JNull, JNull => true
  | JBool x, JBool y => Bool.eqb x y
  | JNum x, JNum y => Z.eqb x y
  | JBool x, JNum y => Z.eqb (Z.b2z x) y
  | JNum x, JBool y => Z.eqb x (Z.b2z y)
  | JStr x, JStr y => String.eqb x y
  | _, _ => false
  end.

Definition pydict (V : Type) : Type := list (json * V).

Fixpoint dict_find {V} (d : pydict V) (k : json) : option V :=
  match d with
  | [] => None
  | (k', v) :: rest => if key_eqb k' k then Some v else dict_find rest k
  end.

Fixpoint dict_store {V} (d : pydict V) (k : json) (v : V) : pydict V :=
  match d with
  | [] => [(k, v)]
  | (k', v') :: rest =>
      if key_eqb k' k then (k', v) :: rest
      else (k', v') :: dict_store rest k v
  end.

(** [k in d] *)
Definition dict_contains {V} (d : pydict V) (k : json) : pyresult bool :=
  if hashable k then
    Ok (match dict_find d k with Some _ => true | None => false end)
  else Raise TypeError.

(** [d[k]] *)
Definition dict_getitem {V} (d : pydict V) (k : json) : pyresult V :=
  if hashable k then
    match dict_find d k with
    | Some v => Ok v
    | None => Raise KeyError
    end
  else Raise TypeError.

(** [d[k] = v] *)
Definition dict_setitem {V} (d : pydict V) (k : json) (v : V) : pyresult (pydict V) :=
  if hashable k then Ok (dict_store d k v) else Raise TypeError.

(** ** main *)

(** One turn of the grouping loop, lines 147-150.  [apps[app_name].append]
    changes the list held by the dict in place. *)
Definition group_step (apps : pydict (list ResultRecord)) (result : ResultRecord)
    : pyresult (pydict (list ResultRecord)) :=
  let app_name := application_name result in
  present ← dict_contains apps app_name;
  apps ← (if negb present then dict_setitem apps app_name [] else Ok apps);
  members ← dict_getitem apps app_name;
  dict_setitem apps app_name (members ++ [result]).

(** [for result in target_urls], lines 146-150. *)
Fixpoint group_loop (target_urls : list ResultRecord)
    (apps : pydict (list ResultRecord)) : pyresult (pydict (list ResultRecord)) :=
  match target_urls with
  | [] => Ok apps
  | result :: rest =>
      apps' ← group_step apps result;
      group_loop rest apps'
  end.

(** Lines 145-150. *)
Definition group_by_application (target_urls : list ResultRecord)
    : pyresult (pydict (list ResultRecord)) :=
  let apps := [] in
  group_loop target_urls apps.

Fixpoint string_repeat (s : string) (n : nat) : string :=
  match n with
  | O => EmptyString
  | S n' => s +:+ string_repeat s n'
  end.

(** The block printed for one record, lines 155-162. *)
Definition print_record (result : ResultRecord) : M unit :=
  print [Lit "  Analysis: "; Interp (analysis_name result);
         Lit " (ID: "; Interp (analysis_id result); Lit ")"];;
  print [Lit "  Scan ID: "; Interp (scan_id result)];;
  print [Lit "  Scan Config: "; Interp (scan_config_name result)];;
  print [Lit "  Target URL: "; Interp (target_url result)];;
  print [Lit "  Status: "; Interp (latest_status result)];;
  print [Lit "  Created: "; Interp (created_on result)];;
  print [Lit "  Modified: "; Interp (last_modified_on result)];;
  print [].

Fixpoint print_records (app_results : list ResultRecord) : M unit :=
  match app_results with
  | [] => ret tt
  | result :: rest => print_record result;; print_records rest
  end.

(** [for app_name, app_results in apps.items()], lines 152-162. *)
Fixpoint print_groups (items : pydict (list ResultRecord)) : M unit :=
  match items with
  | [] => ret tt
  | (app_name, app_results) :: rest =>
      print [Lit NL; Lit "Application: "; Interp app_name];;
      print_records app_results;;
      print_groups rest
  end.

Definition output_file : string := "veracode_target_urls.json".

(** The text [json.dump(target_urls, f, indent=2)] writes. *)
Definition json_dump (target_urls : list ResultRecord) : string :=
  Json.dumps (JArr (map record_json target_urls)).

(** The reporting block of [main], lines 140-171. *)
Definition report (target_urls : list ResultRecord) : M unit :=
  match target_urls with
  | _ :: _ =>
      print [Lit NL; Lit "Target URLs by Application:"];;
      print [Lit (string_repeat "-" 80)];;
      apps ← lift (group_by_application target_urls);
      print_groups apps;;
      write_file output_file (json_dump target_urls);;
      print [Lit "Results saved to: "; Lit output_file]
  | [] => print [Lit "No target URLs found."]
  end.

(** The closing lines, 174-180. *)
Definition print_answers : M unit :=
  print [Lit NL; Lit "=== ANSWERS TO YOUR QUESTIONS ==="];;
  print [Lit "1. Is there a REST/XML API to GET all Dynamic analysis URL or Target URL tied to a scan?"];;
  print [Lit "   YES - Use GET /analyses/{analysis_id}/scans to get scans with target_url field"];;
  print [];;
  print [Lit "2. Can we see all Target URLs for all applications via GET API?"];;
  print [Lit "   YES - By combining GET /analyses + GET /analyses/{analysis_id}/scans"];;
  print [Lit "   This script demonstrates the approach you suggested."].

Definition main (srv : server) : M unit :=
  print [Lit "=== Veracode Dynamic Analysis Target URL Extractor ==="; Lit NL];;
  target_urls ← extract_target_urls srv;
  print [Lit NL; Lit "=== RESULTS ==="];;
  print [Lit "Total target URLs found: ";
         Interp (JNum (Z.of_nat (length target_urls)))];;
  report target_urls;;
  print_answers.

(** The world a run starts from: nothing sent, nothing printed, the files
    that are there. *)
Definition start (fs : gmap string string) : world := World [] [] [] fs.

(** ** Shapes and requests the statements refer to *)

Definition has_target_url (r : ResultRecord) : Prop := truthy (target_url r) = true.

(** Every loop only appends, and what it appends has a target URL. *)
Definition appends (results rs : list ResultRecord) : Prop :=
  exists added, rs = results ++ added /\ Forall has_target_url added.

(** A scan of the shape the loop body reads: an object whose
    [latest_occurrence_status], when present, is an object. *)
Definition scan_ok (scan : json) : bool :=
  match scan with
  | JObj members =>
      match assoc "latest_occurrence_status" members with
      | Some (JObj _) | None => true
      | Some _ => false
      end
  | _ => false
  end.

(** The request [get_all_analyses] sends. *)
Definition analyses_request : request :=
  Request "GET" (Lit base_url :: analyses_endpoint) None.

(** The request [get_analysis_scans] sends. *)
Definition scans_request (analysis_id : json) : request :=
  Request "GET" (Lit base_url :: scans_endpoint analysis_id) None.

(** [w] after the lines [out] were printed. *)
Definition printed (w : world) (out : list fstring) : world :=
  World (requests w) (console w ++ out) (opened w) (files w).

(** The record the scans loop builds for [scan], when it builds one. *)
Definition produced_by (a : analysis_fields) (scan : json) (rs : list ResultRecord)
    : Prop :=
  match py_get scan "target_url" JNull with
  | Ok u =>
      if truthy u then
        exists r, rs = [r] /\ scan_record a scan = Ok (Some r) /\ target_url r = u
      else rs = []
  | Raise _ => False
  end.

(** The lines [_make_request] prints when the request fails. *)
Definition failure_lines (e : string) (text : option string) : list fstring :=
  [Lit "API request failed: "; Lit e]
  :: match text with
     | Some t => [[Lit "Response: "; Lit t]]
     | None => []
     end.

(** A decoded response without [_embedded], or whose [_embedded] object has
    no [key]. *)
Definition lacks_items (key : string) (members : list (string * json)) : Prop :=
  assoc "_embedded" members = None \/
  exists embedded, assoc "_embedded" members = Some (JObj embedded) /\
                   assoc key embedded = None.

(** A response whose item list is empty. *)
Definition empty_page (key : string) : json :=
  JObj [("_embedded", JObj [(key, JArr [])])].

(** The keys of a list in order of first occurrence, one for each class of
    equal keys. *)
Fixpoint first_seen (names : list json) : list json :=
  match names with
  | [] => []
  | n :: rest => n :: List.filter (fun m => negb (key_eqb n m)) (first_seen rest)
  end.

(** The records whose application name equals the key [k], in their
    original order. *)
Definition group_of (k : json) (rs : list ResultRecord) : list ResultRecord :=
  List.filter (fun r => key_eqb k (application_name r)) rs.

(** The grouping of a result set: one group per application name, in
    first-seen order. *)
Definition grouped (rs : list ResultRecord) : pydict (list ResultRecord) :=
  map (fun k => (k, group_of k rs)) (first_seen (map application_name rs)).

(** No two keys of the list are equal. *)
Fixpoint distinct_keys (ks : list json) : Prop :=
  match ks with
  | [] => True
  | k :: rest => Forall (fun k' => key_eqb k k' = false) rest /\ distinct_keys rest
  end.

Definition seen (x : json) (names : list json) : bool :=
  existsb (fun n => key_eqb n x) names.

(** ** Values as Python holds them

    A dict has one entry per key.  In the association-list model this is
    the condition that the keys of every object are pairwise different. *)

Fixpoint unique_keys (keys : list string) : bool :=
  match keys with
  | [] => true
  | k :: rest => negb (existsb (String.eqb k) rest) && unique_keys rest
  end.

Fixpoint well_formed (v : json) : bool :=
  match v with
  | JArr items => forallb well_formed items
  | JObj members =>
      unique_keys (map fst members)
      && forallb (fun kv => well_formed (snd kv)) members
  | _ => true
  end.

(** The number of calls of the decoder a value needs. *)
Fixpoint size (v : json) : nat :=
  match v with
  | JArr items => S (list_sum (map (fun x => S (size x)) items))
  | JObj members => S (list_sum (map (fun kv => S (size (snd kv))) members))
  | _ => 1
  end.

(** The keys of a result record, in the order of the dict literal. *)
Definition record_keys : list string :=
  ["analysis_id"; "analysis_name"; "application_name"; "scan_id";
   "scan_config_name"; "target_url"; "latest_status"; "created_on";
   "last_modified_on"].

(** Text that may follow an encoded value: nothing, or a character that
    cannot continue a number. *)
Definition delimited (rest : string) : bool :=
  match rest with
  | EmptyString => true
  | String c _ =>
      negb (Json.is_digit c || Ascii.eqb c "." || Ascii.eqb c "e" || Ascii.eqb c "E")
  end.

(** The round trip of one value, for any text after it that cannot continue
    a number and any sufficient fuel. *)
Definition decodes_back (v : json) : Prop :=
  forall level rest fuel,
    well_formed v = true -> delimited rest = true -> size v <= fuel ->
    Json.scan_once fuel (Json.iterencode v level +:+ rest) = Some (v, rest).

(** A parsed object that matches a record: exactly the nine keys, each
    with the value of the record's field. *)
Definition same_record (r : ResultRecord) (o : json) : Prop :=
  exists members,
    o = JObj members /\ map fst members = record_keys /\
    assoc "analysis_id" members = Some (analysis_id r) /\
    assoc "analysis_name" members = Some (analysis_name r) /\
    assoc "application_name" members = Some (application_name r) /\
    assoc "scan_id" members = Some (scan_id r) /\
    assoc "scan_config_name" members = Some (scan_config_name r) /\
    assoc "target_url" members = Some (target_url r) /\
    assoc "latest_status" members = Some (latest_status r) /\
    assoc "created_on" members = Some (created_on r) /\
    assoc "last_modified_on" members = Some (last_modified_on r).

(** A record all of whose values are well formed. *)
Definition record_ok (r : ResultRecord) : bool := well_formed (record_json r).

(** An API whose decoded bodies are values as Python holds them. *)
Definition server_ok (srv : server) : Prop :=
  forall history r body, srv history r = HttpOk body -> well_formed body = true.

Definition fields_ok (a : analysis_fields) : Prop :=
  well_formed (af_id a) = true /\ well_formed (af_name a) = true /\
  well_formed (af_app_name a) = true.

(** ** Effects of a computation *)

(** [w'] is [w] with more requests sent and more lines printed, the file
    system untouched. *)
Definition extends (w w' : world) : Prop :=
  requests w `prefix_of` requests w' /\ console w `prefix_of` console w' /\
  opened w' = opened w /\ files w' = files w.

(** A computation that only sends requests and prints, whatever its
    outcome. *)
Definition quiet {A} (m : M A) : Prop :=
  forall w res w', m w = (res, w') -> extends w w'.

(** A computation that sends no request, whatever its outcome. *)
Definition offline {A} (m : M A) : Prop :=
  forall w res w', m w = (res, w') -> requests w' = requests w.

(** The value under [key], or [default] when the key is missing. *)
Definition field (members : list (string * json)) (key : string) (default : json)
    : json :=
  match assoc key members with
  | Some v => v
  | None => default
  end.

(** The records [rs] are [results] followed by records that satisfy [Q]. *)
Definition appends_with (Q : ResultRecord -> Prop) (results rs : list ResultRecord)
    : Prop :=
  exists added, rs = results ++ added /\ Forall Q added.

(** The lines [main] prints between the extraction and the report. *)
Definition results_lines (target_urls : list ResultRecord) : list fstring :=
  [[Lit NL; Lit "=== RESULTS ==="];
   [Lit "Total target URLs found: ";
    Interp (JNum (Z.of_nat (length target_urls)))]].

(** The first line [main] prints. *)
Definition banner : fstring :=
  [Lit "=== Veracode Dynamic Analysis Target URL Extractor ==="; Lit NL].

(** The request [_make_request] sends for a method it knows: a GET carries
    no data. *)
Definition request_of (method : string) (endpoint : fstring) (data : option json)
    : request :=
  Request method (Lit base_url :: endpoint)
          (if String.eqb method "GET" then None else data).

(** The lines [print_answers] prints. *)
Definition answer_lines : list fstring :=
  [[Lit NL; Lit "=== ANSWERS TO YOUR QUESTIONS ==="];
   [Lit "1. Is there a REST/XML API to GET all Dynamic analysis URL or Target URL tied to a scan?"];
   [Lit "   YES - Use GET /analyses/{analysis_id}/scans to get scans with target_url field"];
   [];
   [Lit "2. Can we see all Target URLs for all applications via GET API?"];
   [Lit "   YES - By combining GET /analyses + GET /analyses/{analysis_id}/scans"];
   [Lit "   This script demonstrates the approach you suggested."]].

(** Every application name of the result set can be a dict key. *)
Definition all_hashable (rs : list ResultRecord) : bool :=
  forallb (fun r => hashable (application_name r)) rs.

(** ** Scans and the records built from them *)

(** What the scans loop adds for [scan] when it gets past it: the record
    [scan_record] builds, or nothing when it builds none. *)
Definition built_from (a : analysis_fields) (scan : json) (out : list ResultRecord)
    : Prop :=
  match scan_record a scan with
  | Ok (Some r) => out = [r]
  | Ok None => out = []
  | Raise _ => False
  end.

(** The application name of an analysis object: the [name] of its
    [application] object, the literal "Unknown" when either is missing. *)
Definition owner_app_name (analysis : list (string * json)) : json :=
  match assoc "application" analysis with
  | Some (JObj application) => field application "name" (JStr "Unknown")
  | _ => JStr "Unknown"
  end.

(** The scans the loop visits for a decoded scans listing, lines 95 and
    97. *)
Definition listed_scans (scans_response : json) : pyresult (list json) :=
  scans ← embedded_items scans_response "scans";
  py_iter scans.

(** ** Scenarios

    Concrete API behaviours used to run the definitions. *)

Module Scenario.

Definition shop_scan : json :=
  JObj [("scan_id", JStr "S1"); ("target_url", JStr "https://shop.example.com")].

Definition bare_scan : json := JObj [("scan_id", JStr "S2")].

Definition analysis (id name app : string) : json :=
  JObj [("analysis_id", JStr id); ("name", JStr name);
        ("application", JObj [("name", JStr app)])].

Definition page (key : string) (items : list json) : json :=
  JObj [("_embedded", JObj [(key, JArr items)])].

(** One analysis "A1" of application "Shop" with two scans, one of them
    without a target URL. *)
Definition shop_server : server :=
  fun _ r =>
    match req_url r with
    | [_; _] => HttpOk (page "analyses" [analysis "A1" "App Scan" "Shop"])
    | [_; _; Interp (JStr id); _] =>
        if String.eqb id "A1" then HttpOk (page "scans" [shop_scan; bare_scan])
        else HttpFail "404 Client Error" None
    | _ => HttpFail "404 Client Error" None
    end.

(** Analyses "A1" and "A2"; the scans listing of "A2" fails. *)
Definition flaky_server : server :=
  fun _ r =>
    match req_url r with
    | [_; _] =>
        HttpOk (page "analyses" [analysis "A1" "App Scan" "Shop";
                                 analysis "A2" "Other Scan" "Blog"])
    | [_; _; Interp (JStr id); _] =>
        if String.eqb id "A1" then HttpOk (page "scans" [shop_scan])
        else HttpFail "Connection aborted" None
    | _ => HttpFail "404 Client Error" None
    end.

(** The analyses listing itself fails. *)
Definition down_server : server :=
  fun _ _ => HttpFail "503 Server Error" (Some "Service Unavailable").

(** Every listing answers with the empty object. *)
Definition empty_object_server : server := fun _ _ => HttpOk (JObj []).

Definition shop_fields : analysis_fields :=
  AnalysisFields (JStr "A1") (JStr "App Scan") (JStr "Shop").

Definition shop_record : ResultRecord :=
  mkResult (JStr "A1") (JStr "App Scan") (JStr "Shop") (JStr "S1") (JStr "N/A")
    (JStr "https://shop.example.com") (JStr "Unknown") (JStr "Unknown")
    (JStr "Unknown").

Definition blog_record : ResultRecord :=
  mkResult (JStr "A2") (JStr "Other Scan") (JStr "Blog") (JStr "S7") (JStr "N/A")
    (JStr "https://blog.example.com") (JStr "Unknown") (JStr "Unknown")
    (JStr "Unknown").

Definition shop_admin_record : ResultRecord :=
  mkResult (JStr "A3") (JStr "Admin Scan") (JStr "Shop") (JStr "S9") (JStr "N/A")
    (JStr "https://admin.shop.example.com") (JStr "Unknown") (JStr "Unknown")
    (JStr "Unknown").

(** A record whose application name is a list, as a scan with
    ["application_name": ["Shop"]] yields. *)
Definition list_named_record : ResultRecord :=
  mkResult (JStr "A1") (JStr "App Scan") (JArr [JStr "Shop"]) (JStr "S1")
    (JStr "N/A") (JStr "https://shop.example.com") (JStr "Unknown")
    (JStr "Unknown") (JStr "Unknown").

(** A scan without a target URL whose [latest_occurrence_status] is a
    string. *)
Definition odd_status_scan : json :=
  JObj [("scan_id", JStr "S3"); ("latest_occurrence_status", JStr "FINISHED")].

(** An analysis without [analysis_id]. *)
Definition nameless_analysis : json := JObj [("name", JStr "App Scan")].

(** Every listing answers with a page of one scan with a target URL. *)
Definition one_scan_server : server :=
  fun _ _ => HttpOk (page "scans" [shop_scan]).

(** The analyses listing answers with an object where a list is expected. *)
Definition keyed_analyses_server : server :=
  fun _ _ => HttpOk (JObj [("_embedded",
                            JObj [("analyses", JObj [("A1", JStr "App Scan")])])]).

(** No credentials are configured: the signing plugin raises, and the
    exception is not a [RequestException]. *)
Definition no_credentials_server : server :=
  fun _ _ => HttpRaise (OtherError "VeracodeCredentialsError").

(** A scan with a target URL whose [latest_occurrence_status] is [null]. *)
Definition null_status_scan : json :=
  JObj [("scan_id", JStr "S4"); ("target_url", JStr "https://shop.example.com");
        ("latest_occurrence_status", JNull)].

(** The one analysis "A1" lists the scan with the [null] status. *)
Definition null_status_server : server :=
  fun _ r =>
    match req_url r with
    | [_; _] => HttpOk (page "analyses" [analysis "A1" "App Scan" "Shop"])
    | _ => HttpOk (page "scans" [null_status_scan])
    end.

(** The one analysis "A1" lists a scan whose application name is a list. *)
Definition list_name_server : server :=
  fun _ r =>
    match req_url r with
    | [_; _] => HttpOk (page "analyses" [analysis "A1" "App Scan" "Shop"])
    | _ => HttpOk (page "scans"
                     [JObj [("scan_id", JStr "S1");
                            ("target_url", JStr "https://shop.example.com");
                            ("application_name", JArr [JStr "Shop"])]])
    end.

End Scenario.

(** * Properties *)

(** ** Running the monad *)

Ltac run :=
  unfold mbind, mret, M_bind, M_ret, pyresult_bind, pyresult_ret,
         bind, rbind, ret, lift, raise, print, send, write_file in *;
  simpl in *.

Lemma shop_extraction :
  fst (extract_target_urls Scenario.shop_server (start ∅)) = Ok [Scenario.shop_record].
Proof. reflexivity. Qed.

(** ** The target URL filter *)

Lemma scan_record_target_url a scan r :
  scan_record a scan = Ok (Some r) ->
  py_get scan "target_url" JNull = Ok (target_url r) /\ has_target_url r.
Proof.
  unfold scan_record, has_target_url. run.
  destruct (py_get scan "target_url" JNull) as [u|]; [|discriminate].
  destruct (py_get scan "scan_id" JNull); [|discriminate].
  destruct (py_get scan "application_name" (af_app_name a)); [|discriminate].
  destruct (py_get scan "scan_config_name" (JStr "N/A")); [|discriminate].
  destruct (py_get scan "latest_occurrence_status" (JObj [])) as [o|]; [|discriminate].
  destruct (py_get o "status_type" (JStr "Unknown")); [|discriminate].
  destruct (truthy u) eqn:Hu; [|discriminate].
  destruct (py_get scan "created_on" (JStr "Unknown")); [|discriminate].
  destruct (py_get scan "last_modified_on" (JStr "Unknown")); [|discriminate].
  intros [= <-]. simpl. auto.
Qed.

Lemma appends_refl results : appends results results.
Proof. exists []. rewrite app_nil_r. split; [reflexivity|constructor]. Qed.

Lemma appends_trans r1 r2 r3 : appends r1 r2 -> appends r2 r3 -> appends r1 r3.
Proof.
  intros (a1 & -> & H1) (a2 & -> & H2). exists (a1 ++ a2).
  rewrite app_assoc. split; [reflexivity|]. apply Forall_app; auto.
Qed.

Lemma scan_body_appends a scan results w rs w' :
  scan_body a scan results w = (Ok rs, w') -> appends results rs.
Proof.
  unfold scan_body. run.
  destruct (scan_record a scan) as [[r|]|] eqn:Hrec; simpl; try discriminate.
  - intros [= <- <-]. exists [r]. split; [reflexivity|].
    constructor; [|constructor].
    exact (proj2 (scan_record_target_url _ _ _ Hrec)).
  - intros [= <- <-]. apply appends_refl.
Qed.

Lemma scans_loop_appends a scans : forall results w rs w',
  scans_loop a scans results w = (Ok rs, w') -> appends results rs.
Proof.
  induction scans as [|scan rest IH]; intros results w rs w'; simpl.
  - run. intros [= <- <-]. apply appends_refl.
  - unfold mbind, M_bind, bind.
    destruct (scan_body a scan results w) as [[rs1|] w1] eqn:Hbody; [|discriminate].
    intros Hloop. eapply appends_trans; [eapply scan_body_appends|eapply IH]; eauto.
Qed.

Lemma use_scans_response_appends a resp results w rs w' :
  use_scans_response a resp results w = (Ok rs, w') -> appends results rs.
Proof.
  unfold use_scans_response.
  destruct (truthy resp); simpl.
  - unfold mbind, M_bind, bind, lift.
    destruct (embedded_items resp "scans") as [s|]; [|discriminate].
    destruct (py_iter s) as [items|]; [|discriminate].
    apply scans_loop_appends.
  - run. intros [= <- <-]. apply appends_refl.
Qed.

Lemma analysis_body_appends srv analysis results w rs w' :
  analysis_body srv analysis results w = (Ok rs, w') -> appends results rs.
Proof.
  unfold analysis_body, mbind, M_bind, bind, lift.
  destruct (read_analysis analysis) as [a|]; [|discriminate].
  unfold print; simpl.
  destruct (get_analysis_scans srv (af_id a) _) as [[resp|] w2]; [|discriminate].
  apply use_scans_response_appends.
Qed.

Lemma analyses_loop_appends srv analyses : forall results w rs w',
  analyses_loop srv analyses results w = (Ok rs, w') -> appends results rs.
Proof.
  induction analyses as [|analysis rest IH]; intros results w rs w'; simpl.
  - run. intros [= <- <-]. apply appends_refl.
  - unfold mbind, M_bind, bind.
    destruct (analysis_body srv analysis results w) as [[rs1|] w1] eqn:Hbody;
      [|discriminate].
    intros Hloop.
    eapply appends_trans; [eapply analysis_body_appends|eapply IH]; eauto.
Qed.

Lemma use_analyses_response_appends srv resp results w rs w' :
  use_analyses_response srv resp results w = (Ok rs, w') -> appends results rs.
Proof.
  unfold use_analyses_response.
  destruct (truthy resp); simpl.
  - unfold mbind, M_bind, bind, lift.
    destruct (embedded_items resp "analyses") as [l|]; [|discriminate].
    destruct (truthy l); simpl.
    + destruct (py_len l); [|discriminate].
      unfold print; simpl.
      destruct (py_iter l) as [items|]; [|discriminate].
      apply analyses_loop_appends.
    + run. intros [= <- <-]. apply appends_refl.
  - run. intros [= <- <-]. apply appends_refl.
Qed.

Lemma truthy_not_empty v :
  truthy v = true -> v <> JStr "" /\ v <> JNull.
Proof. intros H. split; intros ->; discriminate. Qed.

Lemma scan_body_appends_one a scan results w rs w' :
  scan_body a scan results w = (Ok rs, w') ->
  rs = results \/
  exists r, rs = results ++ [r] /\
            py_get scan "target_url" JNull = Ok (target_url r) /\
            truthy (target_url r) = true.
Proof.
  unfold scan_body. run.
  destruct (scan_record a scan) as [[r|]|] eqn:Hrec; simpl; try discriminate.
  - intros [= <- <-]. right. exists r. split; [reflexivity|].
    exact (scan_record_target_url _ _ _ Hrec).
  - intros [= <- <-]. left. reflexivity.
Qed.

(** C1. One turn of the scans loop leaves the result set as it is or
    appends one record, and it appends only for a scan whose [target_url]
    passes the test [if target_url:].  So every record of the returned
    result set has a non-empty target URL: it is true in a boolean context,
    and in particular it is neither the empty string nor [None]. *)
Theorem extract_target_urls_nonempty_urls srv w rs w' :
  extract_target_urls srv w = (Ok rs, w') ->
  Forall (fun r => truthy (target_url r) = true /\
                   target_url r <> JStr "" /\ target_url r <> JNull) rs /\
  forall a scan results w1 rs1 w2,
    scan_body a scan results w1 = (Ok rs1, w2) ->
    rs1 = results \/
    exists r, rs1 = results ++ [r] /\
              py_get scan "target_url" JNull = Ok (target_url r) /\
              truthy (target_url r) = true.
Proof.
  intros Hrun. split; [|intros; eapply scan_body_appends_one; eauto].
  assert (Hall : Forall has_target_url rs).
  { revert Hrun. unfold extract_target_urls, mbind, M_bind, bind.
    destruct (get_all_analyses srv w) as [[resp|] w1]; [|discriminate].
    intros Hrun.
    destruct (use_analyses_response_appends _ _ _ _ _ _ Hrun) as (added & -> & H).
    exact H. }
  eapply Forall_impl; [exact Hall|].
  intros r Hr. split; [exact Hr|]. apply truthy_not_empty, Hr.
Qed.

Lemma extract_target_urls_nonempty_urls_witness :
  Forall (fun r => truthy (target_url r) = true /\
                   target_url r <> JStr "" /\ target_url r <> JNull)
         [Scenario.shop_record].
Proof.
  apply (proj1 (extract_target_urls_nonempty_urls Scenario.shop_server (start ∅)
                  [Scenario.shop_record]
                  (snd (extract_target_urls Scenario.shop_server (start ∅)))
                  eq_refl)).
Defined.

(** ** One record per scan with a target URL *)

Lemma scan_record_total a scan :
  scan_ok scan = true ->
  exists u, py_get scan "target_url" JNull = Ok u /\
    if truthy u then
      exists r, scan_record a scan = Ok (Some r) /\ target_url r = u
    else scan_record a scan = Ok None.
Proof.
  destruct scan as [| | | | |members]; try discriminate. simpl.
  intros Hok. unfold scan_record. run.
  destruct (assoc "target_url" members) as [u|]; simpl.
  - exists u. split; [reflexivity|].
    destruct (assoc "scan_id" members), (assoc "application_name" members),
      (assoc "scan_config_name" members),
      (assoc "latest_occurrence_status" members) as [[]|]; try discriminate;
      simpl;
      repeat match goal with
             | |- context [assoc ?k ?m] => destruct (assoc k m); simpl
             end;
      destruct (truthy u); simpl;
      repeat match goal with
             | |- context [assoc ?k ?m] => destruct (assoc k m); simpl
             end; eauto.
  - exists JNull. split; [reflexivity|]. simpl.
    destruct (assoc "scan_id" members), (assoc "application_name" members),
      (assoc "scan_config_name" members),
      (assoc "latest_occurrence_status" members) as [[]|]; try discriminate;
      simpl;
      repeat match goal with
             | |- context [assoc ?k ?m] => destruct (assoc k m); simpl
             end; reflexivity.
Qed.

Lemma scan_body_total a scan results w :
  scan_ok scan = true ->
  exists rs w', scan_body a scan results w = (Ok (results ++ rs), w') /\
                produced_by a scan rs.
Proof.
  intros Hok. destruct (scan_record_total a scan Hok) as (u & Hu & Hrec).
  unfold produced_by, scan_body. rewrite Hu. run.
  destruct (truthy u).
  - destruct Hrec as (r & -> & Hr). simpl. exists [r]. eexists. split; eauto.
  - rewrite Hrec. simpl. exists []. eexists. rewrite app_nil_r. split; eauto.
Qed.

(** Over a scans list whose scans are well-formed objects, the loop
    returns the records it had followed by what each scan produced, in
    order. *)
Lemma scans_loop_total a scans : forall results w,
  Forall (fun scan => scan_ok scan = true) scans ->
  exists produced w',
    scans_loop a scans results w = (Ok (results ++ concat produced), w') /\
    Forall2 (produced_by a) scans produced.
Proof.
  induction scans as [|scan rest IH]; intros results w Hok.
  - exists [], w. simpl. rewrite app_nil_r. split; [reflexivity|constructor].
  - inversion Hok as [|? ? Hscan Hrest]; subst.
    destruct (scan_body_total a scan results w Hscan) as (rs & w1 & Hbody & Hprod).
    destruct (IH (results ++ rs) w1 Hrest) as (produced & w2 & Hloop & Hall).
    exists (rs :: produced), w2. split; [|constructor; assumption].
    simpl. unfold mbind, M_bind, bind. rewrite Hbody, Hloop.
    rewrite app_assoc. reflexivity.
Qed.

(** ** Requests *)

Lemma get_all_analyses_ok srv w body :
  srv (requests w) analyses_request = HttpOk body ->
  get_all_analyses srv w =
    (Ok body, World (requests w ++ [analyses_request])
                    (console w ++ [[Lit "Fetching all analyses..."]])
                    (opened w) (files w)).
Proof.
  intros H. unfold get_all_analyses, _make_request. run.
  fold analyses_request. rewrite H. reflexivity.
Qed.

Lemma get_all_analyses_fail srv w e t :
  srv (requests w) analyses_request = HttpFail e t ->
  get_all_analyses srv w =
    (Ok JNull, World (requests w ++ [analyses_request])
                     (console w ++ [Lit "Fetching all analyses..."]
                                   :: failure_lines e t)
                     (opened w) (files w)).
Proof.
  intros H. unfold get_all_analyses, _make_request. run.
  fold analyses_request. rewrite H.
  destruct t; simpl; rewrite <- ?app_assoc; reflexivity.
Qed.

Lemma get_analysis_scans_ok srv id w body :
  srv (requests w) (scans_request id) = HttpOk body ->
  get_analysis_scans srv id w =
    (Ok body, World (requests w ++ [scans_request id])
                    (console w ++ [[Lit "Fetching scans for analysis ID: "; Interp id]])
                    (opened w) (files w)).
Proof.
  intros H. unfold get_analysis_scans, _make_request. run.
  fold (scans_request id). rewrite H. reflexivity.
Qed.

Lemma get_analysis_scans_fail srv id w e t :
  srv (requests w) (scans_request id) = HttpFail e t ->
  get_analysis_scans srv id w =
    (Ok JNull, World (requests w ++ [scans_request id])
                     (console w ++ [Lit "Fetching scans for analysis ID: "; Interp id]
                                   :: failure_lines e t)
                     (opened w) (files w)).
Proof.
  intros H. unfold get_analysis_scans, _make_request. run.
  fold (scans_request id). rewrite H.
  destruct t; simpl; rewrite <- ?app_assoc; reflexivity.
Qed.

(** ** The two failure tiers *)

Lemma use_analyses_response_falsy srv body results w :
  truthy body = false ->
  use_analyses_response srv body results w =
    (Ok results, printed w [[Lit "Failed to fetch analyses"]]).
Proof. intros H. unfold use_analyses_response. rewrite H. reflexivity. Qed.

Lemma use_analyses_response_none srv body l results w :
  truthy body = true ->
  embedded_items body "analyses" = Ok l -> truthy l = false ->
  use_analyses_response srv body results w =
    (Ok results, printed w [[Lit "No analyses found"]]).
Proof.
  intros Hb He Hl. unfold use_analyses_response. rewrite Hb. simpl.
  unfold mbind at 1, M_bind, bind, lift. rewrite He, Hl. reflexivity.
Qed.

Lemma use_scans_response_falsy a body results w :
  truthy body = false ->
  use_scans_response a body results w =
    (Ok results, printed w [[Lit "  No scans found for analysis "; Interp (af_id a)]]).
Proof. intros H. unfold use_scans_response. rewrite H. reflexivity. Qed.

(** C3. When the analyses listing fails, or succeeds with no analyses in
    the page, the extraction returns the empty result set and the only
    request it has sent is the analyses listing: no scans listing is
    requested, and no file is touched. *)
Theorem no_analyses_is_a_hard_stop srv w :
  (exists e t, srv (requests w) analyses_request = HttpFail e t) \/
  (exists body l, srv (requests w) analyses_request = HttpOk body /\
                  embedded_items body "analyses" = Ok l /\ truthy l = false) ->
  exists w', extract_target_urls srv w = (Ok [], w') /\
             requests w' = requests w ++ [analyses_request] /\
             opened w' = opened w /\ files w' = files w.
Proof.
  intros [(e & t & Hfail)|(body & l & Hok & Hitems & Hl)];
    unfold extract_target_urls, mbind, M_bind, bind.
  - rewrite (get_all_analyses_fail _ _ _ _ Hfail).
    rewrite use_analyses_response_falsy by reflexivity.
    eexists. split; [reflexivity|]. simpl. auto.
  - rewrite (get_all_analyses_ok _ _ _ Hok).
    destruct (truthy body) eqn:Hb.
    + rewrite (use_analyses_response_none _ _ _ _ _ Hb Hitems Hl).
      eexists. split; [reflexivity|]. simpl. auto.
    + rewrite use_analyses_response_falsy by exact Hb.
      eexists. split; [reflexivity|]. simpl. auto.
Qed.

Lemma no_analyses_is_a_hard_stop_witness :
  exists w', extract_target_urls Scenario.down_server (start ∅) = (Ok [], w') /\
             requests w' = requests (start ∅) ++ [analyses_request] /\
             opened w' = opened (start ∅) /\ files w' = files (start ∅).
Proof.
  apply (no_analyses_is_a_hard_stop Scenario.down_server (start ∅)).
  left. exists "503 Server Error", (Some "Service Unavailable"). reflexivity.
Defined.

Lemma no_analyses_in_page_stops :
  fst (extract_target_urls (fun _ _ => HttpOk (empty_page "analyses")) (start ∅))
  = Ok [] /\
  requests (snd (extract_target_urls (fun _ _ => HttpOk (empty_page "analyses"))
                   (start ∅)))
  = [analyses_request].
Proof. split; reflexivity. Qed.

(** C4. When the scans listing of one analysis fails, the loop goes on with
    the next analysis, the records collected so far untouched: the run from
    this analysis on is the run over the remaining analyses, in the world
    where the failed request was sent and reported.  Whatever that run
    returns starts with the records collected before. *)
Theorem failed_scans_listing_skips_one_analysis srv analysis a rest results w :
  read_analysis analysis = Ok a ->
  (exists e t, srv (requests w) (scans_request (af_id a)) = HttpFail e t) ->
  exists w1,
    analyses_loop srv (analysis :: rest) results w = analyses_loop srv rest results w1 /\
    requests w1 = requests w ++ [scans_request (af_id a)] /\
    opened w1 = opened w /\ files w1 = files w /\
    forall rs w', analyses_loop srv rest results w1 = (Ok rs, w') ->
                  results `prefix_of` rs.
Proof.
  intros Hread (e & t & Hfail). simpl.
  unfold mbind at 1, M_bind, bind, analysis_body.
  unfold mbind at 1, M_bind, bind, lift. rewrite Hread.
  unfold mbind at 1, M_bind, bind, print. simpl.
  unfold mbind at 1, M_bind, bind.
  rewrite (get_analysis_scans_fail srv (af_id a) _ e t) by exact Hfail.
  rewrite use_scans_response_falsy by reflexivity.
  eexists. split; [reflexivity|]. simpl. repeat split.
  intros rs w' Hloop.
  destruct (analyses_loop_appends _ _ _ _ _ _ Hloop) as (added & -> & _).
  exists added. reflexivity.
Qed.

Lemma failed_scans_listing_skips_one_analysis_witness :
  exists w1,
    analyses_loop Scenario.flaky_server
      [Scenario.analysis "A2" "Other Scan" "Blog"] [Scenario.shop_record] (start ∅)
    = analyses_loop Scenario.flaky_server [] [Scenario.shop_record] w1 /\
    requests w1 = requests (start ∅) ++ [scans_request (JStr "A2")] /\
    opened w1 = opened (start ∅) /\ files w1 = files (start ∅) /\
    forall rs w', analyses_loop Scenario.flaky_server [] [Scenario.shop_record] w1
                  = (Ok rs, w') -> [Scenario.shop_record] `prefix_of` rs.
Proof.
  apply (failed_scans_listing_skips_one_analysis Scenario.flaky_server
           (Scenario.analysis "A2" "Other Scan" "Blog")
           (AnalysisFields (JStr "A2") (JStr "Other Scan") (JStr "Blog"))
           [] [Scenario.shop_record] (start ∅)).
  - reflexivity.
  - exists "Connection aborted", None. reflexivity.
Defined.

(** The scenario of the specification: "A1" succeeds with one valid scan,
    the scans listing of "A2" fails. *)
Lemma flaky_extraction :
  fst (extract_target_urls Scenario.flaky_server (start ∅)) = Ok [Scenario.shop_record]
  /\ requests (snd (extract_target_urls Scenario.flaky_server (start ∅)))
     = [analyses_request; scans_request (JStr "A1"); scans_request (JStr "A2")].
Proof. split; reflexivity. Qed.

(** ** Field fallback *)

Lemma read_analysis_app_name amembers a :
  read_analysis (JObj amembers) = Ok a ->
  match assoc "application" amembers with
  | None => af_app_name a = JStr "Unknown"
  | Some application =>
      exists app, application = JObj app /\
        af_app_name a = match assoc "name" app with
                        | Some name => name
                        | None => JStr "Unknown"
                        end
  end.
Proof.
  unfold read_analysis. run.
  destruct (assoc "analysis_id" amembers), (assoc "name" amembers),
    (assoc "application" amembers) as [[| | | | |app]|]; simpl;
    try discriminate;
    try (intros [= <-]; reflexivity);
    try (destruct (assoc "name" app) eqn:Hn; simpl; intros [= <-]; simpl;
         exists app; rewrite ?Hn; auto).
Qed.

(** The record built for a scan with a non-empty [target_url] and no
    [application_name] key, given the fields read from an analysis. *)
Lemma scan_record_falls_back amembers a members u :
  read_analysis (JObj amembers) = Ok a ->
  scan_ok (JObj members) = true ->
  assoc "target_url" members = Some u -> truthy u = true ->
  assoc "application_name" members = None ->
  exists r, scan_record a (JObj members) = Ok (Some r) /\
    application_name r = af_app_name a /\
    (assoc "application" amembers = None -> application_name r = JStr "Unknown") /\
    (forall app, assoc "application" amembers = Some (JObj app) ->
       application_name r = match assoc "name" app with
                            | Some name => name
                            | None => JStr "Unknown"
                            end).
Proof.
  intros Hread Hok Hurl Hu Happ.
  assert (Hrec : exists r, scan_record a (JObj members) = Ok (Some r) /\
                           application_name r = af_app_name a).
  { unfold scan_record. run. rewrite Hurl, Happ. simpl. rewrite Hu.
    destruct (assoc "scan_id" members), (assoc "scan_config_name" members),
      (assoc "latest_occurrence_status" members) as [[]|]; try discriminate;
      simpl;
      repeat match goal with
             | |- context [assoc ?k ?m] => destruct (assoc k m); simpl
             end; eexists; split; reflexivity. }
  destruct Hrec as (r & Hrec & Hname). exists r.
  split; [exact Hrec|]. split; [exact Hname|].
  pose proof (read_analysis_app_name _ _ Hread) as Hfields.
  split.
  - intros Hnone. rewrite Hnone in Hfields. congruence.
  - intros app Hsome. rewrite Hsome in Hfields.
    destruct Hfields as (app' & [= <-] & Hfields). congruence.
Qed.

Lemma scan_record_falls_back_example :
  exists r, scan_record Scenario.shop_fields Scenario.shop_scan = Ok (Some r) /\
    application_name r = JStr "Shop" /\
    (assoc "application" [("analysis_id", JStr "A1"); ("name", JStr "App Scan");
                          ("application", JObj [("name", JStr "Shop")])] = None ->
     application_name r = JStr "Unknown") /\
    (forall app,
       assoc "application" [("analysis_id", JStr "A1"); ("name", JStr "App Scan");
                            ("application", JObj [("name", JStr "Shop")])]
       = Some (JObj app) ->
       application_name r = match assoc "name" app with
                            | Some name => name
                            | None => JStr "Unknown"
                            end).
Proof.
  apply (scan_record_falls_back
           [("analysis_id", JStr "A1"); ("name", JStr "App Scan");
            ("application", JObj [("name", JStr "Shop")])]
           Scenario.shop_fields
           [("scan_id", JStr "S1"); ("target_url", JStr "https://shop.example.com")]
           (JStr "https://shop.example.com")); reflexivity.
Defined.

(** An analysis without an application: the record falls back to "Unknown". *)
Lemma application_name_unknown :
  fst (analysis_body (fun _ _ => HttpOk (Scenario.page "scans" [Scenario.shop_scan]))
         (JObj [("analysis_id", JStr "A9")]) [] (start ∅))
  = Ok [mkResult (JStr "A9") (JStr "Unknown") (JStr "Unknown") (JStr "S1")
          (JStr "N/A") (JStr "https://shop.example.com") (JStr "Unknown")
          (JStr "Unknown") (JStr "Unknown")].
Proof. reflexivity. Qed.

(** ** A falsy body and the failure sentinel *)

(** C10. A decoded body that is false in a boolean context, such as the
    empty object, is handled by both callers exactly as the sentinel [None]
    is: the analyses caller reports a failed fetch and returns the result
    set as it stands, the scans caller reports no scans and goes on with the
    next analysis.  An analyses listing answered with such a body ends the
    extraction with the empty result set after that single request. *)
Theorem falsy_body_is_the_sentinel body :
  truthy body = false ->
  (forall srv results w,
     use_analyses_response srv body results w
       = use_analyses_response srv JNull results w /\
     use_analyses_response srv body results w
       = (Ok results, printed w [[Lit "Failed to fetch analyses"]])) /\
  (forall a results w,
     use_scans_response a body results w = use_scans_response a JNull results w /\
     use_scans_response a body results w
       = (Ok results,
          printed w [[Lit "  No scans found for analysis "; Interp (af_id a)]])) /\
  (forall srv w,
     srv (requests w) analyses_request = HttpOk body ->
     exists w', extract_target_urls srv w = (Ok [], w') /\
                requests w' = requests w ++ [analyses_request]).
Proof.
  intros Hfalsy. repeat split.
  - rewrite !use_analyses_response_falsy by (exact Hfalsy || reflexivity).
    reflexivity.
  - apply use_analyses_response_falsy, Hfalsy.
  - rewrite !use_scans_response_falsy by (exact Hfalsy || reflexivity).
    reflexivity.
  - apply use_scans_response_falsy, Hfalsy.
  - intros srv w Hok. unfold extract_target_urls, mbind, M_bind, bind.
    rewrite (get_all_analyses_ok _ _ _ Hok).
    rewrite use_analyses_response_falsy by exact Hfalsy.
    eexists. split; reflexivity.
Qed.

Lemma falsy_body_is_the_sentinel_witness :
  (forall srv results w,
     use_analyses_response srv (JObj []) results w
       = use_analyses_response srv JNull results w /\
     use_analyses_response srv (JObj []) results w
       = (Ok results, printed w [[Lit "Failed to fetch analyses"]])) /\
  (forall a results w,
     use_scans_response a (JObj []) results w
       = use_scans_response a JNull results w /\
     use_scans_response a (JObj []) results w
       = (Ok results,
          printed w [[Lit "  No scans found for analysis "; Interp (af_id a)]])) /\
  (forall srv w,
     srv (requests w) analyses_request = HttpOk (JObj []) ->
     exists w', extract_target_urls srv w = (Ok [], w') /\
                requests w' = requests w ++ [analyses_request]).
Proof. apply (falsy_body_is_the_sentinel (JObj [])). reflexivity. Defined.

(** A scans listing answered with the empty object: the analysis is
    skipped, with the message of a failed listing. *)
Lemma empty_object_scans_are_skipped :
  analysis_body Scenario.empty_object_server
    (Scenario.analysis "A1" "App Scan" "Shop") [] (start ∅)
  = (Ok [],
     World [scans_request (JStr "A1")]
       [[Lit NL; Lit "Processing analysis: "; Interp (JStr "App Scan");
         Lit " (ID: "; Interp (JStr "A1"); Lit ", App: "; Interp (JStr "Shop");
         Lit ")"];
        [Lit "Fetching scans for analysis ID: "; Interp (JStr "A1")];
        [Lit "  No scans found for analysis "; Interp (JStr "A1")]]
       [] ∅).
Proof. reflexivity. Qed.

(** ** A response without the expected envelope *)

Lemma lacks_items_empty key members :
  lacks_items key members -> embedded_items (JObj members) key = Ok (JArr []).
Proof.
  unfold embedded_items. run.
  intros [Hnone|(embedded & Hsome & Hkey)].
  - rewrite Hnone. reflexivity.
  - rewrite Hsome. simpl. rewrite Hkey. reflexivity.
Qed.

Lemma truthy_object members : members <> [] -> truthy (JObj members) = true.
Proof. destruct members; [congruence|reflexivity]. Qed.

Lemma use_analyses_response_lacking srv members results w :
  lacks_items "analyses" members ->
  use_analyses_response srv (JObj members) results w =
    (Ok results,
     printed w [[Lit (match members with
                     | [] => "Failed to fetch analyses"
                     | _ :: _ => "No analyses found"
                     end)]]).
Proof.
  intros Hlacks. destruct members as [|m members].
  - apply use_analyses_response_falsy. reflexivity.
  - eapply use_analyses_response_none;
      [reflexivity|apply lacks_items_empty, Hlacks|reflexivity].
Qed.

Lemma use_scans_response_lacking a members results w :
  lacks_items "scans" members ->
  use_scans_response a (JObj members) results w =
    (Ok results,
     match members with
     | [] => printed w [[Lit "  No scans found for analysis "; Interp (af_id a)]]
     | _ :: _ => w
     end).
Proof.
  intros Hlacks. destruct members as [|m members].
  - apply use_scans_response_falsy. reflexivity.
  - unfold use_scans_response.
    rewrite truthy_object by discriminate. simpl.
    unfold mbind at 1, M_bind, bind, lift.
    rewrite (lacks_items_empty _ _ Hlacks). reflexivity.
Qed.

(** C6, as stated, fails on the empty object: it has no [_embedded], yet
    the analyses caller reports a failed fetch where an empty page is
    reported as holding no analyses, and the scans caller prints the
    message of a failed listing where an empty page prints nothing. *)
Lemma empty_object_is_not_read_as_an_empty_page :
  lacks_items "analyses" [] /\ lacks_items "scans" [] /\
  console (snd (extract_target_urls Scenario.empty_object_server (start ∅)))
    = [[Lit "Fetching all analyses..."]; [Lit "Failed to fetch analyses"]] /\
  console (snd (extract_target_urls (fun _ _ => HttpOk (empty_page "analyses"))
                  (start ∅)))
    = [[Lit "Fetching all analyses..."]; [Lit "No analyses found"]] /\
  use_analyses_response Scenario.down_server (JObj []) [] (start ∅)
    <> use_analyses_response Scenario.down_server (empty_page "analyses") []
         (start ∅) /\
  use_scans_response Scenario.shop_fields (JObj []) [] (start ∅)
    = (Ok [], World [] [[Lit "  No scans found for analysis "; Interp (JStr "A1")]]
                [] ∅) /\
  use_scans_response Scenario.shop_fields (empty_page "scans") [] (start ∅)
    = (Ok [], start ∅) /\
  use_scans_response Scenario.shop_fields (JObj []) [] (start ∅)
    <> use_scans_response Scenario.shop_fields (empty_page "scans") [] (start ∅).
Proof.
  split; [left; reflexivity|]. split; [left; reflexivity|].
  split; [reflexivity|]. split; [reflexivity|].
  split; [intros H; inversion H|].
  split; [reflexivity|]. split; [reflexivity|].
  intros H; inversion H.
Qed.

(** C6, amended. A decoded response that is an object without [_embedded],
    or whose [_embedded] object lacks the expected key, gives the result
    set, the requests and the files of a response whose item list is empty;
    unless it is the empty object, the whole run, console included, is the
    one of the empty page. *)
Theorem missing_items_read_as_empty_list members :
  (lacks_items "analyses" members ->
   forall srv results w,
     let got := use_analyses_response srv (JObj members) results w in
     let page := use_analyses_response srv (empty_page "analyses") results w in
     fst got = fst page /\ fst got = Ok results /\
     requests (snd got) = requests (snd page) /\
     opened (snd got) = opened (snd page) /\
     files (snd got) = files (snd page) /\
     (members <> [] -> got = page)) /\
  (lacks_items "scans" members ->
   forall a results w,
     let got := use_scans_response a (JObj members) results w in
     let page := use_scans_response a (empty_page "scans") results w in
     fst got = fst page /\ fst got = Ok results /\
     requests (snd got) = requests (snd page) /\
     opened (snd got) = opened (snd page) /\
     files (snd got) = files (snd page) /\
     (members <> [] -> got = page)).
Proof.
  split; intros Hlacks.
  - intros srv results w. cbv zeta.
    rewrite (use_analyses_response_lacking srv members results w Hlacks).
    change (use_analyses_response srv (empty_page "analyses") results w)
      with (Ok results, printed w [[Lit "No analyses found"]]).
    simpl. repeat split. intros Hne.
    destruct members; [congruence|reflexivity].
  - intros a results w. cbv zeta.
    rewrite (use_scans_response_lacking a members results w Hlacks).
    change (use_scans_response a (empty_page "scans") results w)
      with (Ok results, w).
    destruct members; simpl; repeat split. intros Hne. congruence.
Qed.

Lemma missing_items_read_as_empty_list_witness :
  use_analyses_response Scenario.down_server (JObj [("total", JNum 0)]) []
    (start ∅)
  = use_analyses_response Scenario.down_server (empty_page "analyses") []
      (start ∅).
Proof.
  apply (proj1 (missing_items_read_as_empty_list [("total", JNum 0)])).
  - left. reflexivity.
  - discriminate.
Defined.

(** ** Grouping by application *)

Lemma key_eqb_refl k : hashable k = true -> key_eqb k k = true.
Proof.
  destruct k as [|b|n|s| |]; simpl; try discriminate; intros _; auto.
  - destruct b; reflexivity.
  - apply Z.eqb_refl.
  - apply String.eqb_refl.
Qed.

Lemma key_eqb_sym a b : key_eqb a b = key_eqb b a.
Proof.
  destruct a as [|x|x|x| |], b as [|y|y|y| |]; simpl; auto.
  - destruct x, y; reflexivity.
  - apply Z.eqb_sym.
  - apply Z.eqb_sym.
  - apply Z.eqb_sym.
  - apply String.eqb_sym.
Qed.

Lemma key_eqb_compat a b c :
  key_eqb a b = true -> key_eqb a c = key_eqb b c.
Proof.
  destruct a as [|x|x|x| |], b as [|y|y|y| |]; simpl; try discriminate;
    destruct c as [|z|z|z| |]; simpl; auto;
    rewrite ?Z.eqb_eq, ?String.eqb_eq; intros H; subst; auto;
    try (destruct x, y; simpl in *; congruence);
    try (destruct x, z; reflexivity);
    try (destruct y, z; reflexivity).
Qed.

Lemma key_eqb_trans_false a b c :
  key_eqb a b = true -> key_eqb a c = false -> key_eqb b c = false.
Proof. intros Hab Hac. rewrite <- (key_eqb_compat _ _ _ Hab). exact Hac. Qed.

Lemma first_seen_snoc l x :
  first_seen (l ++ [x]) =
    if seen x l then first_seen l else first_seen l ++ [x].
Proof.
  induction l as [|n l IH]; simpl; [reflexivity|].
  rewrite IH. destruct (seen x l); simpl.
  - rewrite orb_true_r. reflexivity.
  - rewrite orb_false_r, List.filter_app. simpl.
    destruct (key_eqb n x); simpl; rewrite ?app_nil_r; reflexivity.
Qed.

Lemma first_seen_incl l k : In k (first_seen l) -> In k l.
Proof.
  revert k. induction l as [|n l IH]; simpl; [auto|].
  intros k [->|Hin]; [auto|]. right. apply IH.
  apply List.filter_In in Hin. tauto.
Qed.

Lemma seen_false x l :
  seen x l = false -> Forall (fun n => key_eqb n x = false) l.
Proof.
  induction l as [|n l IH]; simpl; [constructor|].
  intros H. apply orb_false_iff in H as [H1 H2]. constructor; auto.
Qed.

Lemma seen_first_seen x l : seen x (first_seen l) = seen x l.
Proof.
  induction l as [|n l IH]; simpl; [reflexivity|].
  destruct (key_eqb n x) eqn:Hn; simpl; [reflexivity|].
  rewrite <- IH. clear IH. induction (first_seen l) as [|k ks IHk]; simpl;
    [reflexivity|].
  destruct (key_eqb n k) eqn:Hk; simpl.
  - rewrite (key_eqb_trans_false _ _ _ Hk Hn). simpl. exact IHk.
  - rewrite IHk. reflexivity.
Qed.

Lemma distinct_keys_filter f ks :
  distinct_keys ks -> distinct_keys (List.filter f ks).
Proof.
  induction ks as [|k ks IH]; simpl; [auto|].
  intros [Hk Hks]. destruct (f k); simpl; [|auto].
  split; [|auto]. apply Forall_forall. intros k' Hin.
  apply list_elem_of_In, List.filter_In in Hin as [Hin _].
  rewrite Forall_forall in Hk. apply Hk. apply list_elem_of_In, Hin.
Qed.

Lemma distinct_first_seen l : distinct_keys (first_seen l).
Proof.
  induction l as [|n l IH]; simpl; [exact I|].
  split; [|apply distinct_keys_filter, IH].
  apply Forall_forall. intros k Hin. apply list_elem_of_In in Hin.
  apply List.filter_In in Hin as [_ Hin].
  destruct (key_eqb n k); [discriminate|reflexivity].
Qed.

Section Dict.

Context {V : Type}.
Variable f : json -> V.

Lemma dict_find_absent ks x :
  seen x ks = false -> dict_find (map (fun k => (k, f k)) ks) x = None.
Proof.
  induction ks as [|k ks IH]; simpl; [reflexivity|].
  intros H. apply orb_false_iff in H as [-> H]. auto.
Qed.

Lemma dict_find_present ks x :
  seen x ks = true ->
  exists k, dict_find (map (fun k => (k, f k)) ks) x = Some (f k) /\
            key_eqb k x = true.
Proof.
  induction ks as [|k ks IH]; simpl; [discriminate|].
  destruct (key_eqb k x) eqn:Hk; simpl; [eauto|auto].
Qed.

Lemma dict_store_absent ks x v :
  seen x ks = false ->
  dict_store (map (fun k => (k, f k)) ks) x v = map (fun k => (k, f k)) ks ++ [(x, v)].
Proof.
  induction ks as [|k ks IH]; simpl; [reflexivity|].
  intros H. apply orb_false_iff in H as [-> H]. rewrite IH by exact H. reflexivity.
Qed.

Lemma dict_store_present ks x v :
  distinct_keys ks -> seen x ks = true ->
  dict_store (map (fun k => (k, f k)) ks) x v =
    map (fun k => (k, if key_eqb k x then v else f k)) ks.
Proof.
  induction ks as [|k ks IH]; simpl; [discriminate|].
  intros [Hk Hks]. destruct (key_eqb k x) eqn:Hkx; simpl.
  - intros _. f_equal. apply map_ext_in. intros k' Hin.
    rewrite Forall_forall in Hk.
    assert (Hk' : key_eqb k k' = false) by (apply Hk, list_elem_of_In, Hin).
    rewrite key_eqb_sym, (key_eqb_trans_false _ _ _ Hkx Hk'). reflexivity.
  - intros Hseen. rewrite IH by assumption. reflexivity.
Qed.

End Dict.

Lemma dict_find_last {V} (d : pydict V) x v :
  dict_find d x = None -> hashable x = true -> dict_find (d ++ [(x, v)]) x = Some v.
Proof.
  intros Hnone Hx. induction d as [|[k u] d IH]; simpl in *.
  - rewrite key_eqb_refl by exact Hx. reflexivity.
  - destruct (key_eqb k x); [discriminate|auto].
Qed.

Lemma dict_store_last {V} (d : pydict V) x u v :
  dict_find d x = None -> hashable x = true ->
  dict_store (d ++ [(x, u)]) x v = d ++ [(x, v)].
Proof.
  intros Hnone Hx. induction d as [|[k u'] d IH]; simpl in *.
  - rewrite key_eqb_refl by exact Hx. reflexivity.
  - destruct (key_eqb k x); [discriminate|]. rewrite IH by exact Hnone. reflexivity.
Qed.

Lemma group_of_snoc k pre r :
  group_of k (pre ++ [r]) =
    group_of k pre ++ (if key_eqb k (application_name r) then [r] else []).
Proof. unfold group_of. rewrite List.filter_app. reflexivity. Qed.

Lemma group_of_unseen k pre :
  seen k (map application_name pre) = false -> group_of k pre = [].
Proof.
  intros H. apply seen_false in H. unfold group_of.
  induction pre as [|r pre IH]; simpl in *; [reflexivity|].
  inversion H as [|? ? Hr Hpre]; subst.
  rewrite key_eqb_sym, Hr. auto.
Qed.

Lemma grouped_snoc pre r :
  grouped (pre ++ [r]) =
    map (fun k => (k, group_of k (pre ++ [r])))
        (if seen (application_name r) (map application_name pre)
         then first_seen (map application_name pre)
         else first_seen (map application_name pre) ++ [application_name r]).
Proof. unfold grouped. rewrite map_app. simpl. rewrite first_seen_snoc. reflexivity. Qed.

Lemma group_step_grouped pre r :
  hashable (application_name r) = true ->
  group_step (grouped pre) r = Ok (grouped (pre ++ [r])).
Proof.
  intros Hk. unfold group_step, dict_contains, dict_getitem, dict_setitem.
  rewrite Hk. run. rewrite grouped_snoc. unfold grouped.
  set (k := application_name r) in *.
  set (names := map application_name pre).
  destruct (seen k names) eqn:Hseen.
  - assert (Hseen' : seen k (first_seen names) = true)
      by (rewrite seen_first_seen; exact Hseen).
    destruct (dict_find_present (fun k => group_of k pre) _ _ Hseen')
      as (k0 & Hfind & Hk0).
    rewrite Hfind. simpl. rewrite Hfind.
    rewrite dict_store_present by (auto using distinct_first_seen).
    f_equal. apply map_ext_in. intros k' _. f_equal.
    rewrite group_of_snoc. fold k.
    destruct (key_eqb k' k) eqn:Hk'; [|rewrite app_nil_r; reflexivity].
    f_equal. unfold group_of. apply List.filter_ext. intros r'.
    apply key_eqb_compat.
    rewrite (key_eqb_compat k0 k k') by exact Hk0.
    rewrite key_eqb_sym. exact Hk'.
  - assert (Hseen' : seen k (first_seen names) = false)
      by (rewrite seen_first_seen; exact Hseen).
    pose proof (dict_find_absent (fun k => group_of k pre) _ _ Hseen') as Hfind.
    rewrite Hfind. simpl.
    rewrite dict_store_absent by exact Hseen'.
    rewrite dict_find_last by assumption.
    rewrite dict_store_last by assumption.
    rewrite map_app. simpl. f_equal. f_equal.
    + apply map_ext_in. intros k' Hin. f_equal.
      rewrite group_of_snoc. fold k.
      apply seen_false in Hseen'. rewrite Forall_forall in Hseen'.
      rewrite (Hseen' k') by (apply list_elem_of_In, Hin).
      rewrite app_nil_r. reflexivity.
    + rewrite group_of_snoc. fold k. rewrite key_eqb_refl by exact Hk.
      rewrite group_of_unseen by exact Hseen. reflexivity.
Qed.

Lemma group_loop_grouped rs : forall pre,
  Forall (fun r => hashable (application_name r) = true) rs ->
  group_loop rs (grouped pre) = Ok (grouped (pre ++ rs)).
Proof.
  induction rs as [|r rs IH]; intros pre Hall; simpl.
  - rewrite app_nil_r. reflexivity.
  - inversion Hall as [|? ? Hr Hrs]; subst.
    unfold mbind, pyresult_bind, rbind. rewrite group_step_grouped by exact Hr.
    rewrite IH by exact Hrs. rewrite <- app_assoc. reflexivity.
Qed.

Lemma group_by_application_grouped rs :
  Forall (fun r => hashable (application_name r) = true) rs ->
  group_by_application rs = Ok (grouped rs).
Proof. exact (group_loop_grouped rs []). Qed.

(** C7, amended. For a result set whose application names can be dict keys
    (strings, numbers, booleans, [None]), the grouping returns one group per
    application name, the names in first-seen order and pairwise different,
    each group holding exactly the records of that name in their original
    relative order.  The mapping is a function of the result set alone, so
    grouping it again gives the same groups in the same order. *)
Theorem grouping_partitions_by_application rs :
  Forall (fun r => hashable (application_name r) = true) rs ->
  group_by_application rs = Ok (grouped rs) /\
  map fst (grouped rs) = first_seen (map application_name rs) /\
  distinct_keys (map fst (grouped rs)) /\
  Forall (fun g => snd g = List.filter
                           (fun r => key_eqb (fst g) (application_name r)) rs /\
                   snd g <> [])
         (grouped rs) /\
  forall apps apps', group_by_application rs = Ok apps ->
                     group_by_application rs = Ok apps' -> apps = apps'.
Proof.
  intros Hall.
  assert (Hkeys : map fst (grouped rs) = first_seen (map application_name rs)).
  { unfold grouped. rewrite map_map. simpl. apply map_id. }
  split; [exact (group_by_application_grouped rs Hall)|].
  split; [exact Hkeys|].
  split; [rewrite Hkeys; apply distinct_first_seen|].
  split; [|congruence].
  apply Forall_forall. intros [k members] Hin. apply list_elem_of_In in Hin.
  unfold grouped in Hin. apply in_map_iff in Hin as (k' & [= <- <-] & Hin).
  split; [reflexivity|]. simpl.
  apply first_seen_incl, in_map_iff in Hin as (r & <- & Hr).
  rewrite Forall_forall in Hall.
  assert (Hr' : In r (group_of (application_name r) rs)).
  { apply List.filter_In. split; [exact Hr|].
    apply key_eqb_refl, Hall, list_elem_of_In, Hr. }
  intros Hnil. rewrite Hnil in Hr'. exact Hr'.
Qed.

Lemma grouping_partitions_by_application_witness :
  group_by_application
    [Scenario.shop_record; Scenario.blog_record; Scenario.shop_admin_record]
  = Ok [(JStr "Shop", [Scenario.shop_record; Scenario.shop_admin_record]);
        (JStr "Blog", [Scenario.blog_record])].
Proof.
  apply (proj1 (grouping_partitions_by_application
                  [Scenario.shop_record; Scenario.blog_record;
                   Scenario.shop_admin_record]
                  ltac:(repeat constructor))).
Defined.

(** Names that are strings are grouped by equality of the strings. *)
Lemma key_eqb_strings a b : key_eqb (JStr a) (JStr b) = true <-> a = b.
Proof. simpl. apply String.eqb_eq. Qed.

(** An application name that cannot be hashed stops the grouping. *)
Lemma grouping_rejects_unhashable_names :
  group_by_application [Scenario.list_named_record] = Raise TypeError.
Proof. reflexivity. Qed.

(** C7, as stated, fails on a result set the extraction can return: the
    application name of a scan is taken as it comes, a list is not
    hashable, and [app_name not in apps] raises instead of grouping. *)
Lemma list_valued_application_name_stops_the_grouping :
  fst (extract_target_urls Scenario.list_name_server (start ∅))
  = Ok [Scenario.list_named_record] /\
  group_by_application [Scenario.list_named_record] = Raise TypeError /\
  fst (main Scenario.list_name_server (start ∅)) = Raise TypeError.
Proof. vm_compute. repeat split; reflexivity. Qed.

(** ** Reporting *)

Lemma printed_printed w a b : printed (printed w a) b = printed w (a ++ b).
Proof. unfold printed. simpl. rewrite app_assoc. reflexivity. Qed.

Lemma printed_nil w : printed w [] = w.
Proof. destruct w. unfold printed. simpl. rewrite app_nil_r. reflexivity. Qed.

Lemma print_printed line w : print line w = (Ok tt, printed w [line]).
Proof. reflexivity. Qed.

Lemma print_record_prints r w :
  exists out, print_record r w = (Ok tt, printed w out).
Proof.
  eexists. unfold print_record. run. unfold printed. simpl.
  rewrite <- !app_assoc. simpl. reflexivity.
Qed.

Lemma print_records_prints rs : forall w,
  exists out, print_records rs w = (Ok tt, printed w out).
Proof.
  induction rs as [|r rs IH]; intros w; simpl.
  - exists []. rewrite printed_nil. reflexivity.
  - unfold mbind at 1, M_bind, bind.
    destruct (print_record_prints r w) as (out1 & ->).
    destruct (IH (printed w out1)) as (out2 & ->).
    rewrite printed_printed. eauto.
Qed.

Lemma print_groups_prints apps : forall w,
  exists out, print_groups apps w = (Ok tt, printed w out).
Proof.
  induction apps as [|[k members] apps IH]; intros w; simpl.
  - exists []. rewrite printed_nil. reflexivity.
  - unfold mbind at 1, M_bind, bind. rewrite print_printed. cbv beta iota.
    unfold mbind at 1, M_bind, bind.
    match goal with
    | |- context [print_records members ?w0] =>
        destruct (print_records_prints members w0) as (out1 & ->)
    end.
    cbv beta iota.
    match goal with
    | |- context [print_groups apps ?w0] => destruct (IH w0) as (out2 & ->)
    end.
    rewrite !printed_printed. eauto.
Qed.

Lemma report_nonempty r rs w :
  match group_by_application (r :: rs) with
  | Ok apps =>
      exists out,
        report (r :: rs) w =
          (Ok tt, World (requests w) (console w ++ out) (opened w ++ [output_file])
                        (<[output_file := json_dump (r :: rs)]> (files w)))
  | Raise e => exists out, report (r :: rs) w = (Raise e, printed w out)
  end.
Proof.
  destruct (group_by_application (r :: rs)) as [apps|e] eqn:Hgroup;
    unfold report; run; rewrite Hgroup.
  - match goal with
    | |- context [print_groups apps ?w0] =>
        destruct (print_groups_prints apps w0) as (out & ->)
    end.
    unfold printed. simpl. eexists. rewrite <- !app_assoc. reflexivity.
  - eexists. unfold printed. simpl. rewrite <- !app_assoc. reflexivity.
Qed.

(** C9. On an empty result set the reporter prints the single line "No
    target URLs found." and does nothing else: no file is opened or
    written, so a file already at the output path is as it was.  Whenever
    the reporter opens a file or changes the file system, the result set is
    non-empty; then, unless grouping raised, the one file it opens is the
    output file, holding the JSON text of the result set. *)
Theorem report_writes_only_nonempty rs w res w' :
  report rs w = (res, w') ->
  (rs = [] ->
     res = Ok tt /\ w' = printed w [[Lit "No target URLs found."]] /\
     opened w' = opened w /\ files w' = files w /\
     files w' !! output_file = files w !! output_file) /\
  (opened w' <> opened w \/ files w' <> files w -> rs <> []) /\
  (rs <> [] -> res = Ok tt ->
     opened w' = opened w ++ [output_file] /\
     files w' = <[output_file := json_dump rs]> (files w)) /\
  (rs <> [] -> Forall (fun r => hashable (application_name r) = true) rs ->
     res = Ok tt).
Proof.
  intros Hrun. destruct rs as [|r rs].
  - simpl in Hrun. rewrite print_printed in Hrun. injection Hrun as <- <-.
    split; [intros _; simpl; auto|].
    split; [simpl; intros [H|H]; congruence|].
    split; intros H; congruence.
  - pose proof (report_nonempty r rs w) as Hrep. rewrite Hrun in Hrep.
    split; [discriminate|]. split; [discriminate|]. split.
    + intros _ ->. destruct (group_by_application (r :: rs)).
      * destruct Hrep as (out & [= ->]). simpl. auto.
      * destruct Hrep as (out & [=]).
    + intros _ Hall.
      rewrite (group_by_application_grouped _ Hall) in Hrep.
      destruct Hrep as (out & [= -> _]). reflexivity.
Qed.

Lemma report_writes_only_nonempty_witness :
  Ok tt = Ok tt /\
  printed (start {[output_file := "[]"]}) [[Lit "No target URLs found."]]
  = printed (start {[output_file := "[]"]}) [[Lit "No target URLs found."]] /\
  opened (printed (start {[output_file := "[]"]}) [[Lit "No target URLs found."]])
  = opened (start {[output_file := "[]"]}) /\
  files (printed (start {[output_file := "[]"]}) [[Lit "No target URLs found."]])
  = files (start {[output_file := "[]"]}) /\
  files (printed (start {[output_file := "[]"]}) [[Lit "No target URLs found."]])
    !! output_file
  = files (start {[output_file := "[]"]}) !! output_file.
Proof.
  apply (proj1 (report_writes_only_nonempty [] (start {[output_file := "[]"]})
                  (Ok tt)
                  (printed (start {[output_file := "[]"]})
                     [[Lit "No target URLs found."]])
                  eq_refl)).
  reflexivity.
Defined.

(** The run of the first scenario writes the one record to the output
    file. *)
Lemma shop_report_is_written :
  exists w', report [Scenario.shop_record] (start ∅) = (Ok tt, w') /\
             opened w' = [output_file] /\
             files w' !! output_file = Some (json_dump [Scenario.shop_record]).
Proof.
  pose proof (report_nonempty Scenario.shop_record [] (start ∅)) as H.
  change (group_by_application [Scenario.shop_record])
    with (Ok [(JStr "Shop", [Scenario.shop_record])]) in H.
  destruct H as (out & ->). eexists. split; [reflexivity|].
  split; [reflexivity|]. apply lookup_insert_eq.
Qed.

(** ** JSON round trip *)

Module JsonFacts.

Import Json.

Lemma append_cons c (s t : string) : String c s +:+ t = String c (s +:+ t).
Proof. reflexivity. Qed.

Lemma append_nil_l (t : string) : EmptyString +:+ t = t.
Proof. reflexivity. Qed.

Lemma append_assoc (a b c : string) : (a +:+ b) +:+ c = a +:+ (b +:+ c).
Proof.
  induction a as [|x a IH]; [reflexivity|].
  rewrite !append_cons, IH. reflexivity.
Qed.

Lemma append_nil_r (a : string) : a +:+ EmptyString = a.
Proof.
  induction a as [|x a IH]; [reflexivity|]. rewrite append_cons, IH. reflexivity.
Qed.

(** Bring a text to the form [String c1 (String c2 (... +:+ rest))]. *)
Ltac flatten :=
  repeat (rewrite append_assoc || rewrite append_cons || rewrite append_nil_l).

Ltac flatten_in H :=
  repeat (rewrite append_assoc in H || rewrite append_cons in H
          || rewrite append_nil_l in H).

(** *** Strings *)

Lemma scanstring_escape_char c t :
  scanstring (escape_char c +:+ t) =
    match scanstring t with
    | Some (tail, after) => Some (String c tail, after)
    | None => None
    end.
Proof.
  destruct c as [b0 b1 b2 b3 b4 b5 b6 b7].
  destruct b0, b1, b2, b3, b4, b5, b6, b7; reflexivity.
Qed.

Lemma scanstring_escape s rest :
  scanstring (escape s +:+ String quote rest) = Some (s, rest).
Proof.
  induction s as [|c s IH]; [reflexivity|].
  change (escape (String c s)) with (escape_char c +:+ escape s).
  rewrite append_assoc, scanstring_escape_char, IH. reflexivity.
Qed.

Lemma scanstring_encoded s rest :
  exists t, encode_basestring_ascii s +:+ rest = String quote t /\
            scanstring t = Some (s, rest).
Proof.
  unfold encode_basestring_ascii. eexists. split; [reflexivity|].
  flatten. apply scanstring_escape.
Qed.

(** *** Numbers *)

Lemma delimited_no_digit rest :
  delimited rest = true ->
  match rest with
  | EmptyString => True
  | String c _ => is_digit c = false
  end.
Proof.
  destruct rest as [|c rest]; simpl; [auto|].
  destruct (is_digit c); [discriminate|reflexivity].
Qed.

Lemma delimited_no_float rest :
  delimited rest = true -> has_frac rest || has_exp rest = false.
Proof.
  destruct rest as [|c rest]; [reflexivity|]. unfold delimited, has_frac, has_exp.
  destruct c as [b0 b1 b2 b3 b4 b5 b6 b7].
  destruct b0, b1, b2, b3, b4, b5, b6, b7; try reflexivity; discriminate.
Qed.

Lemma span_digits_uint d rest :
  delimited rest = true ->
  span_digits (NilEmpty.string_of_uint d +:+ rest) = (NilEmpty.string_of_uint d, rest).
Proof.
  intros Hrest. apply delimited_no_digit in Hrest.
  induction d; simpl NilEmpty.string_of_uint; flatten;
    try (cbn [span_digits]; rewrite IHd; reflexivity).
  destruct rest as [|c rest]; [reflexivity|]. simpl. rewrite Hrest. reflexivity.
Qed.

Lemma to_uint_normal p : Decimal.unorm (Pos.to_uint p) = Pos.to_uint p.
Proof.
  rewrite <- (DecimalPos.Unsigned.to_of (Pos.to_uint p)).
  rewrite DecimalPos.Unsigned.of_to. reflexivity.
Qed.

Lemma to_uint_head p :
  exists c d,
    Pos.to_uint p <> Decimal.Nil /\
    NilEmpty.string_of_uint (Pos.to_uint p) = String c (NilEmpty.string_of_uint d) /\
    is_digit c = true /\ Ascii.eqb c "0" = false.
Proof.
  pose proof (to_uint_normal p) as Hnorm.
  pose proof (DecimalPos.Unsigned.to_uint_nonzero p) as Hzero.
  pose proof (DecimalPos.Unsigned.to_uint_nonnil p) as Hnil.
  destruct (Pos.to_uint p) as [|d|d|d|d|d|d|d|d|d|d] eqn:Hp;
    try congruence;
    try (eexists _, d; split; [discriminate|]; split; [reflexivity|];
         split; reflexivity).
  exfalso. rewrite DecimalFacts.unorm_D0 in Hnorm.
  destruct (Decimal.uint_eq_dec d Decimal.Nil) as [->|Hd].
  - apply Hzero. reflexivity.
  - pose proof (DecimalFacts.nb_digits_unorm d Hd) as Hle.
    rewrite Hnorm in Hle. simpl in Hle. lia.
Qed.

Lemma parse_int_repr n : parse_int (int_repr n) = Some n.
Proof.
  unfold parse_int, int_repr. rewrite NilZero.isi.
  - simpl. rewrite DecimalZ.of_to. reflexivity.
  - destruct n; simpl; try discriminate.
    intros [= H]. exact (DecimalPos.Unsigned.to_uint_nonnil _ H).
  - destruct n; simpl; try discriminate.
    intros [= H]. exact (DecimalPos.Unsigned.to_uint_nonnil _ H).
Qed.

Lemma match_integer_uint p rest :
  delimited rest = true ->
  match_integer (NilZero.string_of_uint (Pos.to_uint p) +:+ rest) =
    Some (NilZero.string_of_uint (Pos.to_uint p), rest) /\
  match_integer (String "-" (NilZero.string_of_uint (Pos.to_uint p)) +:+ rest) =
    Some (String "-" (NilZero.string_of_uint (Pos.to_uint p)), rest).
Proof.
  intros Hrest.
  destruct (to_uint_head p) as (c & d & Hnil & Hstr & Hdigit & Hzero).
  assert (Hsame : NilZero.string_of_uint (Pos.to_uint p)
                  = NilEmpty.string_of_uint (Pos.to_uint p)).
  { destruct (Pos.to_uint p); [congruence|reflexivity..]. }
  rewrite Hsame, Hstr. flatten.
  assert (Hminus : forall t, match String c t with
                             | String "-" r => ("-", r)
                             | _ => (EmptyString, String c t)
                             end = (EmptyString, String c t)).
  { intros t. destruct c as [b0 b1 b2 b3 b4 b5 b6 b7].
    destruct b0, b1, b2, b3, b4, b5, b6, b7; try reflexivity; discriminate. }
  split.
  - unfold match_integer. rewrite Hminus, Hzero, Hdigit.
    rewrite span_digits_uint by exact Hrest. reflexivity.
  - unfold match_integer. rewrite Hzero, Hdigit.
    rewrite span_digits_uint by exact Hrest. reflexivity.
Qed.

Lemma scan_number_repr n rest :
  delimited rest = true ->
  scan_number (int_repr n +:+ rest) = Some (JNum n, rest).
Proof.
  intros Hrest. unfold scan_number.
  assert (Hint : match_integer (int_repr n +:+ rest) = Some (int_repr n, rest)).
  { unfold int_repr. destruct n as [|p|p]; simpl Z.to_int; simpl NilZero.string_of_int.
    - reflexivity.
    - apply match_integer_uint, Hrest.
    - apply match_integer_uint, Hrest. }
  rewrite Hint. simpl. rewrite delimited_no_float by exact Hrest.
  rewrite parse_int_repr. reflexivity.
Qed.

Lemma int_repr_head n :
  exists c t, int_repr n = String c t /\ (is_digit c = true \/ c = "-"%char).
Proof.
  unfold int_repr. destruct n as [|p|p]; simpl Z.to_int; simpl NilZero.string_of_int.
  - eexists _, _. split; [reflexivity|]. left. reflexivity.
  - destruct (to_uint_head p) as (c & d & Hnil & Hstr & Hdigit & _).
    exists c, (NilEmpty.string_of_uint d). split; [|auto].
    rewrite <- Hstr. destruct (Pos.to_uint p); [congruence|reflexivity..].
  - eexists _, _. split; [reflexivity|]. right. reflexivity.
Qed.

Lemma digit_head c :
  is_digit c = true \/ c = "-"%char ->
  is_ws c = false /\ Ascii.eqb c "]" = false.
Proof.
  destruct c as [b0 b1 b2 b3 b4 b5 b6 b7].
  destruct b0, b1, b2, b3, b4, b5, b6, b7;
    intros [H|H]; try discriminate; split; reflexivity.
Qed.

Lemma scan_once_number c t fuel :
  is_digit c = true \/ c = "-"%char ->
  scan_once (S fuel) (String c t) = scan_number (String c t).
Proof.
  destruct c as [b0 b1 b2 b3 b4 b5 b6 b7].
  destruct b0, b1, b2, b3, b4, b5, b6, b7;
    intros [H|H]; try discriminate; reflexivity.
Qed.

(** *** Layout *)

Lemma iterencode_array x xs level :
  iterencode (JArr (x :: xs)) level =
    "[" +:+ newline_indent (S level) +:+ iterencode x (S level)
    +:+ more_items level xs +:+ newline_indent level +:+ "]".
Proof. reflexivity. Qed.

Lemma iterencode_object k v ms level :
  iterencode (JObj ((k, v) :: ms)) level =
    "{" +:+ newline_indent (S level)
    +:+ encode_basestring_ascii k +:+ ": " +:+ iterencode v (S level)
    +:+ more_members level ms +:+ newline_indent level +:+ "}".
Proof. reflexivity. Qed.

Lemma skip_ws_head c t : is_ws c = false -> skip_ws (String c t) = String c t.
Proof. intros H. simpl. rewrite H. reflexivity. Qed.

Lemma skip_ws_spaces level s : skip_ws (spaces level +:+ s) = skip_ws s.
Proof.
  induction level as [|level IH]; [reflexivity|].
  change (spaces (S level)) with ("  " +:+ spaces level). flatten. exact IH.
Qed.

Lemma skip_ws_newline_indent level s :
  skip_ws (newline_indent level +:+ s) = skip_ws s.
Proof.
  unfold newline_indent, NL. flatten.
  change (skip_ws (spaces level +:+ s) = skip_ws s). apply skip_ws_spaces.
Qed.

Lemma delimited_newline_indent level s :
  delimited (newline_indent level +:+ s) = true.
Proof. reflexivity. Qed.

(** An encoded value starts with a character that is neither whitespace
    nor a closing bracket. *)
Lemma iterencode_head v level rest :
  exists c t, iterencode v level +:+ rest = String c t /\
              is_ws c = false /\ Ascii.eqb c "]" = false.
Proof.
  destruct v as [|[]|n|s|[|x xs]|[|[k v] ms]];
    try (eexists _, _; split; [reflexivity|split; reflexivity]).
  destruct (int_repr_head n) as (c & t & Hrepr & Hc).
  exists c, (t +:+ rest). simpl iterencode. rewrite Hrepr.
  split; [reflexivity|]. apply digit_head, Hc.
Qed.

Lemma skip_ws_iterencode v level rest :
  skip_ws (iterencode v level +:+ rest) = iterencode v level +:+ rest.
Proof.
  destruct (iterencode_head v level rest) as (c & t & -> & Hws & _).
  apply skip_ws_head, Hws.
Qed.

(** *** Dicts *)

Lemma dict_put_fresh k v d :
  existsb (fun kv => String.eqb (fst kv) k) d = false ->
  dict_put k v d = d ++ [(k, v)].
Proof.
  induction d as [|[k' v'] d IH]; simpl; [reflexivity|].
  intros H. apply orb_false_iff in H as [-> H]. rewrite IH by exact H. reflexivity.
Qed.

Lemma unique_keys_app_fresh (acc : list (string * json)) k v l :
  unique_keys (map fst (acc ++ (k, v) :: l)) = true ->
  existsb (fun kv => String.eqb (fst kv) k) acc = false.
Proof.
  induction acc as [|[k' v'] acc IH]; simpl; [reflexivity|].
  intros H. apply andb_true_iff in H as [Hk' H]. rewrite (IH H), orb_false_r.
  apply negb_true_iff in Hk'.
  rewrite map_app, existsb_app in Hk'. apply orb_false_iff in Hk' as [_ Hk'].
  simpl in Hk'. apply orb_false_iff in Hk' as [Hk' _]. exact Hk'.
Qed.

Lemma fold_dict_put l : forall acc,
  unique_keys (map fst (acc ++ l)) = true ->
  fold_left (fun d kv => dict_put (fst kv) (snd kv) d) l acc = acc ++ l.
Proof.
  induction l as [|[k v] l IH]; intros acc Hu; simpl.
  - rewrite app_nil_r. reflexivity.
  - rewrite dict_put_fresh by (eapply unique_keys_app_fresh; exact Hu).
    rewrite IH; rewrite <- app_assoc; [reflexivity|exact Hu].
Qed.

Lemma dict_of_pairs_unique l :
  unique_keys (map fst l) = true -> dict_of_pairs l = l.
Proof. intros H. unfold dict_of_pairs. rewrite fold_dict_put; auto. Qed.

(** *** Decoding what was encoded *)

Lemma scan_once_S fuel c rest :
  scan_once (S fuel) (String c rest) =
    if Ascii.eqb c quote then
      '(str, after) ← scanstring rest; Some (JStr str, after)
    else if Ascii.eqb c "{" then
      match skip_ws rest with
      | String c1 rest1 =>
          if Ascii.eqb c1 "}" then Some (JObj [], rest1)
          else if Ascii.eqb c1 quote then object_loop fuel rest1 []
          else None
      | EmptyString => None
      end
    else if Ascii.eqb c "[" then
      match skip_ws rest with
      | String c1 rest1 =>
          if Ascii.eqb c1 "]" then Some (JArr [], rest1)
          else array_loop fuel (String c1 rest1) []
      | EmptyString => None
      end
    else if Ascii.eqb c "n" then
      after ← strip_prefix "null" (String c rest); Some (JNull, after)
    else if Ascii.eqb c "t" then
      after ← strip_prefix "true" (String c rest); Some (JBool true, after)
    else if Ascii.eqb c "f" then
      after ← strip_prefix "false" (String c rest); Some (JBool false, after)
    else scan_number (String c rest).
Proof. reflexivity. Qed.

Lemma array_loop_S fuel s values :
  array_loop (S fuel) s values =
    '(value, after) ← scan_once fuel s;
    match skip_ws after with
    | String c rest =>
        if Ascii.eqb c "]" then Some (JArr (values ++ [value]), rest)
        else if Ascii.eqb c "," then array_loop fuel (skip_ws rest) (values ++ [value])
        else None
    | EmptyString => None
    end.
Proof. reflexivity. Qed.

Lemma object_loop_S fuel s pairs :
  object_loop (S fuel) s pairs =
    '(key, after_key) ← scanstring s;
    match skip_ws after_key with
    | String colon rest =>
        if Ascii.eqb colon ":" then
          '(value, after) ← scan_once fuel (skip_ws rest);
          match skip_ws after with
          | String c rest1 =>
              if Ascii.eqb c "}" then
                Some (JObj (dict_of_pairs (pairs ++ [(key, value)])), rest1)
              else if Ascii.eqb c "," then
                match skip_ws rest1 with
                | String q rest2 =>
                    if Ascii.eqb q quote then
                      object_loop fuel rest2 (pairs ++ [(key, value)])
                    else None
                | EmptyString => None
                end
              else None
          | EmptyString => None
          end
        else None
    | EmptyString => None
    end.
Proof. reflexivity. Qed.

Lemma bind_some {A B} (a : A) (k : A -> option B) : Some a ≫= k = k a.
Proof. reflexivity. Qed.

Lemma array_loop_items level rest :
  delimited rest = true ->
  forall xs x values fuel,
    Forall decodes_back (x :: xs) ->
    forallb well_formed (x :: xs) = true ->
    list_sum (map (fun x => S (size x)) (x :: xs)) <= fuel ->
    array_loop fuel
      (iterencode x (S level) +:+ more_items level xs +:+ newline_indent level
       +:+ String "]" rest) values
    = Some (JArr (values ++ x :: xs), rest).
Proof.
  intros Hrest. induction xs as [|y ys IH]; intros x values fuel Hall Hwf Hfuel;
    (destruct fuel as [|fuel]; [simpl in Hfuel; lia|]);
    inversion Hall as [|? ? Hx Hxs]; subst;
    simpl in Hwf; apply andb_true_iff in Hwf as [Hwfx Hwfxs];
    (rewrite array_loop_S, Hx;
      [|exact Hwfx|reflexivity|simpl in Hfuel; lia]); rewrite bind_some.
  - change (more_items level [] +:+ newline_indent level +:+ String "]" rest)
      with (newline_indent level +:+ String "]" rest).
    rewrite skip_ws_newline_indent, skip_ws_head by reflexivity. reflexivity.
  - change (more_items level (y :: ys))
      with ("," +:+ newline_indent (S level) +:+ iterencode y (S level)
            +:+ more_items level ys).
    flatten. rewrite skip_ws_head by reflexivity.
    change (Ascii.eqb "," "]") with false. change (Ascii.eqb "," ",") with true.
    cbv iota. rewrite skip_ws_newline_indent, skip_ws_iterencode.
    rewrite <- !append_assoc, (append_assoc (iterencode y (S level))).
    rewrite !append_assoc.
    rewrite IH; [|exact Hxs|exact Hwfxs|simpl in Hfuel |- *; lia].
    rewrite <- app_assoc. reflexivity.
Qed.

Lemma skip_ws_space s : skip_ws (String " " s) = skip_ws s.
Proof. reflexivity. Qed.

Lemma object_loop_members level rest :
  delimited rest = true ->
  forall ms k v pairs fuel,
    Forall (fun kv => decodes_back (snd kv)) ((k, v) :: ms) ->
    forallb (fun kv => well_formed (snd kv)) ((k, v) :: ms) = true ->
    list_sum (map (fun kv => S (size (snd kv))) ((k, v) :: ms)) <= fuel ->
    object_loop fuel
      (escape k +:+ String quote
         (": " +:+ iterencode v (S level) +:+ more_members level ms
          +:+ newline_indent level +:+ String "}" rest)) pairs
    = Some (JObj (dict_of_pairs (pairs ++ (k, v) :: ms)), rest).
Proof.
  intros Hrest.
  induction ms as [|[k' v'] ms IH]; intros k v pairs fuel Hall Hwf Hfuel;
    (destruct fuel as [|fuel]; [simpl in Hfuel; lia|]);
    inversion Hall as [|? ? Hv Hms]; subst; simpl in Hv;
    simpl in Hwf; apply andb_true_iff in Hwf as [Hwfv Hwfms];
    rewrite object_loop_S, scanstring_escape, bind_some; flatten;
    rewrite skip_ws_head by reflexivity;
    change (Ascii.eqb ":" ":") with true; cbv iota;
    rewrite skip_ws_space, skip_ws_iterencode;
    (rewrite Hv; [|exact Hwfv|reflexivity|simpl in Hfuel; lia]);
    rewrite bind_some.
  - change (more_members level [] +:+ newline_indent level +:+ String "}" rest)
      with (newline_indent level +:+ String "}" rest).
    rewrite skip_ws_newline_indent, skip_ws_head by reflexivity. reflexivity.
  - change (more_members level ((k', v') :: ms))
      with ("," +:+ newline_indent (S level) +:+ encode_basestring_ascii k'
            +:+ ": " +:+ iterencode v' (S level) +:+ more_members level ms).
    unfold encode_basestring_ascii.
    flatten. rewrite skip_ws_head by reflexivity.
    change (Ascii.eqb "," "}") with false. change (Ascii.eqb "," ",") with true.
    cbv iota. rewrite skip_ws_newline_indent, skip_ws_head by reflexivity.
    change (Ascii.eqb quote quote) with true. cbv iota.
    pose proof (IH k' v' (pairs ++ [(k, v)]) fuel Hms Hwfms) as Hloop.
    flatten_in Hloop. rewrite Hloop by (simpl in Hfuel |- *; lia).
    rewrite <- app_assoc. reflexivity.
Qed.

Lemma scan_once_iterencode v : decodes_back v.
Proof.
  induction v as [|b|n|s|items IH|members IH] using json_ind;
    intros level rest fuel Hwf Hrest Hfuel;
    (destruct fuel as [|fuel]; [simpl in Hfuel; lia|]).
  - reflexivity.
  - destruct b; reflexivity.
  - destruct (int_repr_head n) as (c & t & Hrepr & Hc).
    simpl iterencode. rewrite Hrepr. flatten.
    rewrite scan_once_number by exact Hc.
    rewrite <- append_cons, <- Hrepr. apply scan_number_repr, Hrest.
  - destruct (scanstring_encoded s rest) as (t & Henc & Hscan).
    simpl iterencode. rewrite Henc, scan_once_S.
    change (Ascii.eqb quote quote) with true. cbv iota.
    rewrite Hscan. reflexivity.
  - destruct items as [|x xs]; [reflexivity|].
    rewrite iterencode_array. flatten. rewrite scan_once_S.
    change (Ascii.eqb "[" quote) with false.
    change (Ascii.eqb "[" "{") with false.
    change (Ascii.eqb "[" "[") with true. cbv iota.
    rewrite skip_ws_newline_indent.
    match goal with
    | |- context [skip_ws (iterencode x (S level) +:+ ?r)] =>
        destruct (iterencode_head x (S level) r) as (c & t & Heq & Hws & Hbr)
    end.
    rewrite Heq, skip_ws_head, Hbr by exact Hws. rewrite <- Heq.
    apply (array_loop_items level rest Hrest xs x []);
      [exact IH|exact Hwf|simpl in Hfuel |- *; lia].
  - destruct members as [|[k v] ms]; [reflexivity|].
    rewrite iterencode_object. unfold encode_basestring_ascii.
    flatten. rewrite scan_once_S.
    change (Ascii.eqb "{" quote) with false.
    change (Ascii.eqb "{" "{") with true. cbv iota.
    rewrite skip_ws_newline_indent, skip_ws_head by reflexivity.
    change (Ascii.eqb quote "}") with false.
    change (Ascii.eqb quote quote) with true. cbv iota.
    simpl in Hwf. apply andb_true_iff in Hwf as [Hkeys Hwf].
    pose proof (object_loop_members level rest Hrest ms k v [] fuel IH Hwf)
      as Hloop.
    flatten_in Hloop. rewrite Hloop by (simpl in Hfuel |- *; lia).
    rewrite dict_of_pairs_unique by exact Hkeys. reflexivity.
Qed.

(** *** Fuel *)

Lemma length_append (a b : string) :
  String.length (a +:+ b) = String.length a + String.length b.
Proof.
  induction a as [|c a IH]; [reflexivity|].
  rewrite append_cons. simpl. rewrite IH. reflexivity.
Qed.

Lemma more_items_length level xs :
  Forall (fun x => forall level, size x <= String.length (iterencode x level)) xs ->
  list_sum (map (fun x => S (size x)) xs) <= String.length (more_items level xs).
Proof.
  induction 1 as [|x xs Hx _ IH]; simpl; [lia|].
  rewrite !length_append. specialize (Hx (S level)). simpl. lia.
Qed.

Lemma more_members_length level ms :
  Forall (fun kv => forall level,
            size (snd kv) <= String.length (iterencode (snd kv) level)) ms ->
  list_sum (map (fun kv => S (size (snd kv))) ms)
  <= String.length (more_members level ms).
Proof.
  induction 1 as [|[k v] ms Hv _ IH]; simpl; [lia|].
  rewrite !length_append. specialize (Hv (S level)). simpl in *. lia.
Qed.

Lemma size_le_length v : forall level, size v <= String.length (iterencode v level).
Proof.
  induction v as [|b|n|s|items IH|members IH] using json_ind; intros level.
  - simpl. lia.
  - destruct b; simpl; lia.
  - destruct (int_repr_head n) as (c & t & Hrepr & _).
    simpl iterencode. rewrite Hrepr. simpl. lia.
  - simpl. lia.
  - destruct items as [|x xs]; [simpl; lia|].
    rewrite iterencode_array. inversion IH as [|? ? Hx Hxs]; subst.
    pose proof (more_items_length level xs Hxs). specialize (Hx (S level)).
    rewrite !length_append. simpl. lia.
  - destruct members as [|[k v] ms]; [simpl; lia|].
    rewrite iterencode_object. inversion IH as [|? ? Hv Hms]; subst.
    pose proof (more_members_length level ms Hms). specialize (Hv (S level)).
    rewrite !length_append. simpl in *. lia.
Qed.

(** [json.loads(json.dumps(v, indent=2)) == v] *)
Lemma loads_dumps v : well_formed v = true -> loads (dumps v) = Some v.
Proof.
  intros Hwf. unfold loads, dumps.
  pose proof (skip_ws_iterencode v 0 EmptyString) as Hskip.
  pose proof (scan_once_iterencode v 0 EmptyString
                (S (String.length (iterencode v 0))) Hwf eq_refl) as Hscan.
  rewrite append_nil_r in Hskip, Hscan.
  rewrite Hskip, Hscan; [reflexivity|].
  pose proof (size_le_length v 0). lia.
Qed.

End JsonFacts.

Lemma record_json_same r : same_record r (record_json r).
Proof. exists (record_items r). repeat split. Qed.

Lemma well_formed_records rs :
  Forall (fun r => record_ok r = true) rs ->
  well_formed (JArr (map record_json rs)) = true.
Proof.
  intros Hall. simpl. apply forallb_forall. intros o Hin.
  apply in_map_iff in Hin as (r & <- & Hr).
  rewrite Forall_forall in Hall. apply Hall, list_elem_of_In, Hr.
Qed.

Lemma json_dump_parses rs :
  Forall (fun r => record_ok r = true) rs ->
  Json.loads (json_dump rs) = Some (JArr (map record_json rs)).
Proof. intros Hall. apply JsonFacts.loads_dumps, well_formed_records, Hall. Qed.

Lemma records_same rs : Forall2 same_record rs (map record_json rs).
Proof.
  induction rs as [|r rs IH]; constructor; [apply record_json_same|exact IH].
Qed.

(** On the values of the model (integers, strings of characters below
    256, no floats), the text [json.dump] writes for a result set parses
    back to a list of objects, one per record and in the order of the
    records, each with exactly the nine keys of the dict literal and, under
    each key, the value the record holds. *)
Lemma json_dump_round_trip rs :
  Forall (fun r => record_ok r = true) rs ->
  exists objects,
    Json.loads (json_dump rs) = Some (JArr objects) /\
    Forall2 same_record rs objects.
Proof.
  intros Hall. exists (map record_json rs).
  split; [apply json_dump_parses, Hall|apply records_same].
Qed.

Lemma json_dump_round_trip_example :
  exists objects,
    Json.loads (json_dump [Scenario.shop_record; Scenario.blog_record])
    = Some (JArr objects) /\
    Forall2 same_record [Scenario.shop_record; Scenario.blog_record] objects.
Proof.
  apply (json_dump_round_trip [Scenario.shop_record; Scenario.blog_record]).
  repeat constructor.
Defined.

(** The file the reporter writes parses back to the records reported. *)
Lemma report_file_round_trip rs w w' :
  rs <> [] -> Forall (fun r => record_ok r = true) rs ->
  report rs w = (Ok tt, w') ->
  exists text objects,
    files w' !! output_file = Some text /\
    Json.loads text = Some (JArr objects) /\
    Forall2 same_record rs objects.
Proof.
  intros Hne Hall Hrun.
  exists (json_dump rs), (map record_json rs).
  split; [|split; [apply json_dump_parses, Hall|apply records_same]].
  destruct rs as [|r rs]; [congruence|].
  pose proof (report_nonempty r rs w) as Hrep. rewrite Hrun in Hrep.
  destruct (group_by_application (r :: rs)).
  - destruct Hrep as (out & [= ->]). apply lookup_insert_eq.
  - destruct Hrep as (out & [=]).
Qed.

(** *** The records of an extraction are well formed *)

Lemma assoc_well_formed key members v :
  forallb (fun kv => well_formed (snd kv)) members = true ->
  assoc key members = Some v -> well_formed v = true.
Proof.
  induction members as [|[k x] members IH]; simpl; [discriminate|].
  intros H. apply andb_true_iff in H as [Hx H].
  destruct (String.eqb k key); [intros [= <-]; exact Hx|auto].
Qed.

Lemma py_get_well_formed v key default x :
  well_formed v = true -> well_formed default = true ->
  py_get v key default = Ok x -> well_formed x = true.
Proof.
  destruct v as [| | | | |members]; simpl; try discriminate.
  intros Hv Hd. apply andb_true_iff in Hv as [_ Hv].
  destruct (assoc key members) as [y|] eqn:Hy; intros [= <-]; [|exact Hd].
  eapply assoc_well_formed; eauto.
Qed.

Lemma py_iter_well_formed v items :
  well_formed v = true -> py_iter v = Ok items ->
  Forall (fun x => well_formed x = true) items.
Proof.
  destruct v as [| | |s|l|members]; simpl; try discriminate; intros Hv [= <-].
  - induction s; simpl; constructor; auto.
  - apply Forall_forall. intros x Hx. rewrite forallb_forall in Hv.
    apply Hv, list_elem_of_In, Hx.
  - apply Forall_forall. intros x Hx.
    apply list_elem_of_In, in_map_iff in Hx as (kv & <- & _). reflexivity.
Qed.

Lemma embedded_items_well_formed v key x :
  well_formed v = true -> embedded_items v key = Ok x -> well_formed x = true.
Proof.
  intros Hv. unfold embedded_items. run.
  destruct (py_get v "_embedded" (JObj [])) as [e|] eqn:He; [|discriminate].
  intros Hx.
  exact (py_get_well_formed e key (JArr []) x
           (py_get_well_formed v "_embedded" (JObj []) e Hv eq_refl He)
           eq_refl Hx).
Qed.

Lemma read_analysis_well_formed analysis a :
  well_formed analysis = true -> read_analysis analysis = Ok a -> fields_ok a.
Proof.
  intros Hv. unfold read_analysis. run.
  destruct (py_get analysis "analysis_id" JNull) as [i|] eqn:Hi; [|discriminate].
  destruct (py_get analysis "name" (JStr "Unknown")) as [n|] eqn:Hn; [|discriminate].
  destruct (py_get analysis "application" (JObj [])) as [p|] eqn:Hp; [|discriminate].
  destruct (py_get p "name" (JStr "Unknown")) as [q|] eqn:Hq; [|discriminate].
  intros [= <-]. unfold fields_ok. simpl.
  pose proof (py_get_well_formed _ _ (JObj []) _ Hv eq_refl Hp) as Hwfp.
  split; [exact (py_get_well_formed _ _ JNull _ Hv eq_refl Hi)|].
  split; [exact (py_get_well_formed _ _ (JStr "Unknown") _ Hv eq_refl Hn)|].
  exact (py_get_well_formed _ _ (JStr "Unknown") _ Hwfp eq_refl Hq).
Qed.

Lemma scan_record_well_formed a scan r :
  fields_ok a -> well_formed scan = true ->
  scan_record a scan = Ok (Some r) -> record_ok r = true.
Proof.
  intros (Hid & Hname & Happ) Hv. unfold scan_record. run.
  destruct (py_get scan "target_url" JNull) as [x1|] eqn:H1; [|discriminate].
  destruct (py_get scan "scan_id" JNull) as [x2|] eqn:H2; [|discriminate].
  destruct (py_get scan "application_name" (af_app_name a)) as [x3|] eqn:H3;
    [|discriminate].
  destruct (py_get scan "scan_config_name" (JStr "N/A")) as [x4|] eqn:H4;
    [|discriminate].
  destruct (py_get scan "latest_occurrence_status" (JObj [])) as [o|] eqn:Ho;
    [|discriminate].
  destruct (py_get o "status_type" (JStr "Unknown")) as [x5|] eqn:H5; [|discriminate].
  destruct (truthy x1); [|discriminate].
  destruct (py_get scan "created_on" (JStr "Unknown")) as [x6|] eqn:H6; [|discriminate].
  destruct (py_get scan "last_modified_on" (JStr "Unknown")) as [x7|] eqn:H7;
    [|discriminate].
  intros [= <-]. unfold record_ok. simpl.
  pose proof (py_get_well_formed _ _ (JObj []) _ Hv eq_refl Ho) as H.
  rewrite Hid, Hname.
  rewrite (py_get_well_formed _ _ JNull _ Hv eq_refl H1).
  rewrite (py_get_well_formed _ _ JNull _ Hv eq_refl H2).
  rewrite (py_get_well_formed _ _ _ _ Hv Happ H3).
  rewrite (py_get_well_formed _ _ (JStr "N/A") _ Hv eq_refl H4).
  rewrite (py_get_well_formed _ _ (JStr "Unknown") _ H eq_refl H5).
  rewrite (py_get_well_formed _ _ (JStr "Unknown") _ Hv eq_refl H6).
  rewrite (py_get_well_formed _ _ (JStr "Unknown") _ Hv eq_refl H7).
  reflexivity.
Qed.

Lemma scans_loop_well_formed a scans : forall results w rs w',
  fields_ok a -> Forall (fun x => well_formed x = true) scans ->
  Forall (fun r => record_ok r = true) results ->
  scans_loop a scans results w = (Ok rs, w') ->
  Forall (fun r => record_ok r = true) rs.
Proof.
  induction scans as [|scan rest IH]; intros results w rs w' Ha Hscans Hres; simpl.
  - run. intros [= <- <-]. exact Hres.
  - inversion Hscans as [|? ? Hscan Hrest]; subst.
    unfold mbind at 1, M_bind, bind, scan_body.
    unfold mbind at 1, M_bind, bind, lift.
    destruct (scan_record a scan) as [[r|]|] eqn:Hrec; try discriminate.
    + run. apply IH; auto. apply Forall_app. split; [exact Hres|].
      constructor; [|constructor]. eapply scan_record_well_formed; eauto.
    + run. apply IH; auto.
Qed.

Lemma use_scans_response_well_formed a resp results w rs w' :
  fields_ok a -> well_formed resp = true ->
  Forall (fun r => record_ok r = true) results ->
  use_scans_response a resp results w = (Ok rs, w') ->
  Forall (fun r => record_ok r = true) rs.
Proof.
  intros Ha Hresp Hres. unfold use_scans_response.
  destruct (truthy resp); simpl.
  - unfold mbind, M_bind, bind, lift.
    destruct (embedded_items resp "scans") as [s|] eqn:Hs; [|discriminate].
    destruct (py_iter s) as [items|] eqn:Hitems; [|discriminate].
    apply scans_loop_well_formed; auto.
    eapply py_iter_well_formed; [|exact Hitems].
    eapply embedded_items_well_formed; eauto.
  - run. intros [= <- <-]. exact Hres.
Qed.

Lemma _make_request_well_formed srv method endpoint data w body w' :
  server_ok srv ->
  _make_request srv method endpoint data w = (Ok body, w') ->
  well_formed body = true.
Proof.
  intros Hsrv. unfold _make_request.
  destruct (String.eqb method "GET" || String.eqb method "POST"); [|discriminate].
  run.
  match goal with
  | |- context [srv ?h ?r] => destruct (srv h r) as [b|e t|e] eqn:Hr
  end.
  - intros [= <- <-]. eapply Hsrv, Hr.
  - destruct t; intros [= <- <-]; reflexivity.
  - discriminate.
Qed.

Lemma analyses_loop_well_formed srv analyses : forall results w rs w',
  server_ok srv -> Forall (fun x => well_formed x = true) analyses ->
  Forall (fun r => record_ok r = true) results ->
  analyses_loop srv analyses results w = (Ok rs, w') ->
  Forall (fun r => record_ok r = true) rs.
Proof.
  induction analyses as [|analysis rest IH];
    intros results w rs w' Hsrv Hall Hres; simpl.
  - run. intros [= <- <-]. exact Hres.
  - inversion Hall as [|? ? Hanalysis Hrest]; subst.
    unfold mbind at 1, M_bind, bind, analysis_body.
    unfold mbind at 1, M_bind, bind, lift.
    destruct (read_analysis analysis) as [a|] eqn:Hread; [|discriminate].
    unfold mbind at 1, M_bind, bind. rewrite print_printed. cbv beta iota.
    unfold mbind at 1, M_bind, bind, get_analysis_scans.
    unfold mbind at 1, M_bind, bind. rewrite print_printed. cbv beta iota.
    match goal with
    | |- context [_make_request srv ?m ?e ?d ?w0] =>
        destruct (_make_request srv m e d w0) as [[resp|] w1] eqn:Hreq
    end; [|discriminate].
    destruct (use_scans_response a resp results w1) as [[rs1|] w2] eqn:Huse;
      [|discriminate].
    apply IH; auto.
    eapply use_scans_response_well_formed; [| | |exact Huse]; auto.
    + eapply read_analysis_well_formed; eauto.
    + eapply _make_request_well_formed; eauto.
Qed.

(** Every record extracted from an API whose bodies are well formed is well
    formed, so the file written for it parses back to it. *)
Lemma extract_target_urls_well_formed srv w rs w' :
  server_ok srv ->
  extract_target_urls srv w = (Ok rs, w') ->
  Forall (fun r => record_ok r = true) rs.
Proof.
  intros Hsrv. unfold extract_target_urls, mbind at 1, M_bind, bind.
  unfold get_all_analyses, mbind at 1, M_bind, bind.
  rewrite print_printed. cbv beta iota.
  match goal with
  | |- context [_make_request srv ?m ?e ?d ?w0] =>
      destruct (_make_request srv m e d w0) as [[resp|] w1] eqn:Hreq
  end; [|discriminate].
  pose proof (_make_request_well_formed _ _ _ _ _ _ _ Hsrv Hreq) as Hresp.
  unfold use_analyses_response. destruct (truthy resp); simpl.
  - unfold mbind, M_bind, bind, lift.
    destruct (embedded_items resp "analyses") as [l|] eqn:Hl; [|discriminate].
    destruct (truthy l); simpl.
    + destruct (py_len l); [|discriminate]. unfold print; simpl.
      destruct (py_iter l) as [items|] eqn:Hitems; [|discriminate].
      apply analyses_loop_well_formed; auto.
      eapply py_iter_well_formed; [|exact Hitems].
      eapply embedded_items_well_formed; eauto.
    + run. intros [= <- <-]. constructor.
  - run. intros [= <- <-]. constructor.
Qed.

(** * More of the program *)

(** ** What a computation leaves alone *)

Lemma extends_refl w : extends w w.
Proof. unfold extends. auto. Qed.

Lemma extends_trans w1 w2 w3 : extends w1 w2 -> extends w2 w3 -> extends w1 w3.
Proof.
  intros (Hr1 & Hc1 & Ho1 & Hf1) (Hr2 & Hc2 & Ho2 & Hf2).
  repeat split; try congruence; etransitivity; eauto.
Qed.

Lemma quiet_ret {A} (a : A) : quiet (ret a).
Proof. intros w res w' [= <- <-]. apply extends_refl. Qed.

Lemma quiet_mret {A} (a : A) : quiet (mret a : M A).
Proof. apply quiet_ret. Qed.

Lemma quiet_raise {A} e : quiet (raise e : M A).
Proof. intros w res w' [= <- <-]. apply extends_refl. Qed.

Lemma quiet_lift {A} (r : pyresult A) : quiet (lift r).
Proof. intros w res w' [= <- <-]. apply extends_refl. Qed.

Lemma quiet_print line : quiet (print line).
Proof.
  intros w res w' [= <- <-]. repeat split; simpl; auto.
  exists [line]. reflexivity.
Qed.

Lemma quiet_send srv r : quiet (send srv r).
Proof.
  intros w res w' [= <- <-]. repeat split; simpl; auto.
  exists [r]. reflexivity.
Qed.

Lemma quiet_bind {A B} (m : M A) (k : A -> M B) :
  quiet m -> (forall a, quiet (k a)) -> quiet (m ≫= k).
Proof.
  intros Hm Hk w res w'. unfold mbind, M_bind, bind.
  destruct (m w) as [[a|e] w1] eqn:Hrun.
  - intros Hrest. eapply extends_trans; [eapply Hm|eapply Hk]; eauto.
  - intros [= <- <-]. eapply Hm; eauto.
Qed.

Ltac quiet_step :=
  first
    [ apply quiet_bind; [|intros ?]
    | apply quiet_ret | apply quiet_mret | apply quiet_raise
    | apply quiet_lift | apply quiet_print | apply quiet_send
    | match goal with
      | |- quiet (match ?x with _ => _ end) => destruct x
      | |- quiet (if ?b then _ else _) => destruct b
      end ].

Lemma quiet__make_request srv method endpoint data :
  quiet (_make_request srv method endpoint data).
Proof. unfold _make_request. repeat quiet_step. Qed.

Lemma quiet_get_all_analyses srv : quiet (get_all_analyses srv).
Proof.
  unfold get_all_analyses. apply quiet_bind; [apply quiet_print|].
  intros _. apply quiet__make_request.
Qed.

Lemma quiet_get_analysis_scans srv id : quiet (get_analysis_scans srv id).
Proof.
  unfold get_analysis_scans. apply quiet_bind; [apply quiet_print|].
  intros _. apply quiet__make_request.
Qed.

Lemma quiet_scan_body a scan results : quiet (scan_body a scan results).
Proof. unfold scan_body. repeat quiet_step. Qed.

Lemma quiet_scans_loop a scans : forall results, quiet (scans_loop a scans results).
Proof.
  induction scans as [|scan rest IH]; intros results; simpl.
  - apply quiet_ret.
  - apply quiet_bind; [apply quiet_scan_body|auto].
Qed.

Lemma quiet_use_scans_response a resp results :
  quiet (use_scans_response a resp results).
Proof.
  unfold use_scans_response. repeat quiet_step. apply quiet_scans_loop.
Qed.

Lemma quiet_analysis_body srv analysis results :
  quiet (analysis_body srv analysis results).
Proof.
  unfold analysis_body.
  repeat first [apply quiet_get_analysis_scans
               |apply quiet_use_scans_response|quiet_step].
Qed.

Lemma quiet_analyses_loop srv analyses : forall results,
  quiet (analyses_loop srv analyses results).
Proof.
  induction analyses as [|analysis rest IH]; intros results; simpl.
  - apply quiet_ret.
  - apply quiet_bind; [apply quiet_analysis_body|auto].
Qed.

Lemma quiet_use_analyses_response srv resp results :
  quiet (use_analyses_response srv resp results).
Proof.
  unfold use_analyses_response. repeat first [apply quiet_analyses_loop|quiet_step].
Qed.

Lemma quiet_extract_target_urls srv : quiet (extract_target_urls srv).
Proof.
  unfold extract_target_urls.
  apply quiet_bind; [apply quiet_get_all_analyses|].
  intros resp. apply quiet_use_analyses_response.
Qed.

(** X4. Whatever the API answers and whether the extraction returns or
    raises, it leaves the file system alone: no file is opened or written.
    The requests and the console lines it started with are still there, in
    front of what it added. *)
Theorem extraction_leaves_files_alone srv w :
  files (snd (extract_target_urls srv w)) = files w /\
  opened (snd (extract_target_urls srv w)) = opened w /\
  requests w `prefix_of` requests (snd (extract_target_urls srv w)) /\
  console w `prefix_of` console (snd (extract_target_urls srv w)).
Proof.
  destruct (extract_target_urls srv w) as [res w'] eqn:Hrun.
  destruct (quiet_extract_target_urls srv w res w' Hrun) as (Hr & Hc & Ho & Hf).
  simpl. auto.
Qed.

(** ** [_make_request] *)

(** X1. With the method GET or POST, [_make_request] makes exactly one
    request, to the base URL followed by the endpoint, and touches no file.
    It returns the decoded body of a successful answer without printing; it
    returns [None] for a [RequestException], after printing the error and,
    when there is one, the text of the response; an exception of any other
    class raised under the [try] is not caught: it escapes as it is, with
    nothing printed. *)
Theorem make_request_outcomes srv method endpoint data w :
  method = "GET" \/ method = "POST" ->
  exists res w',
    _make_request srv method endpoint data w = (res, w') /\
    requests w' = requests w ++ [request_of method endpoint data] /\
    opened w' = opened w /\ files w' = files w /\
    match srv (requests w) (request_of method endpoint data) with
    | HttpOk b => res = Ok b /\ console w' = console w
    | HttpFail e t => res = Ok JNull /\ console w' = console w ++ failure_lines e t
    | HttpRaise e => res = Raise e /\ console w' = console w
    end.
Proof.
  intros Hmethod. unfold _make_request.
  assert (Hknown : String.eqb method "GET" || String.eqb method "POST" = true)
    by (destruct Hmethod as [-> | ->]; reflexivity).
  rewrite Hknown. run. fold (request_of method endpoint data).
  destruct (srv (requests w) (request_of method endpoint data)) as [b|e t|e].
  - eexists _, _. split; [reflexivity|]. simpl. auto.
  - destruct t; eexists _, _; (split; [reflexivity|]); simpl;
      rewrite <- ?app_assoc; auto.
  - eexists _, _. split; [reflexivity|]. simpl. auto.
Qed.

Lemma make_request_outcomes_witness :
  exists res w',
    _make_request Scenario.no_credentials_server "GET" analyses_endpoint None
      (start ∅) = (res, w') /\
    requests w' = requests (start ∅) ++ [request_of "GET" analyses_endpoint None] /\
    opened w' = opened (start ∅) /\ files w' = files (start ∅) /\
    match Scenario.no_credentials_server (requests (start ∅))
            (request_of "GET" analyses_endpoint None) with
    | HttpOk b => res = Ok b /\ console w' = console (start ∅)
    | HttpFail e t =>
        res = Ok JNull /\ console w' = console (start ∅) ++ failure_lines e t
    | HttpRaise e => res = Raise e /\ console w' = console (start ∅)
    end.
Proof.
  apply (make_request_outcomes Scenario.no_credentials_server "GET"
           analyses_endpoint None (start ∅)).
  left. reflexivity.
Defined.

(** X2. With any other method, [_make_request] sends nothing and prints
    nothing: neither branch binds [response], and the [UnboundLocalError]
    raised by its first use is not a [RequestException], so it escapes. *)
Theorem make_request_unknown_method srv method endpoint data w :
  method <> "GET" -> method <> "POST" ->
  _make_request srv method endpoint data w = (Raise UnboundLocalError, w).
Proof.
  intros Hget Hpost. unfold _make_request.
  apply String.eqb_neq in Hget, Hpost. rewrite Hget, Hpost. reflexivity.
Qed.

Lemma make_request_unknown_method_witness :
  _make_request Scenario.shop_server "PUT" analyses_endpoint None (start ∅)
  = (Raise UnboundLocalError, start ∅).
Proof.
  apply (make_request_unknown_method Scenario.shop_server "PUT" analyses_endpoint
           None (start ∅)); discriminate.
Defined.

(** ** The requests of an extraction *)

Lemma offline_ret {A} (a : A) : offline (ret a).
Proof. intros w res w' [= <- <-]. reflexivity. Qed.

Lemma offline_lift {A} (r : pyresult A) : offline (lift r).
Proof. intros w res w' [= <- <-]. reflexivity. Qed.

Lemma offline_print line : offline (print line).
Proof. intros w res w' [= <- <-]. reflexivity. Qed.

Lemma offline_bind {A B} (m : M A) (k : A -> M B) :
  offline m -> (forall a, offline (k a)) -> offline (m ≫= k).
Proof.
  intros Hm Hk w res w'. unfold mbind, M_bind, bind.
  destruct (m w) as [[a|e] w1] eqn:Hrun.
  - intros Hrest. rewrite (Hk _ _ _ _ Hrest). eapply Hm; eauto.
  - intros [= <- <-]. eapply Hm; eauto.
Qed.

Ltac offline_step :=
  first
    [ apply offline_bind; [|intros ?]
    | apply offline_ret | apply offline_lift | apply offline_print
    | match goal with
      | |- offline (match ?x with _ => _ end) => destruct x
      | |- offline (if ?b then _ else _) => destruct b
      end ].

Lemma offline_scan_body a scan results : offline (scan_body a scan results).
Proof. unfold scan_body. repeat offline_step. Qed.

Lemma offline_scans_loop a scans : forall results,
  offline (scans_loop a scans results).
Proof.
  induction scans as [|scan rest IH]; intros results; simpl.
  - apply offline_ret.
  - apply offline_bind; [apply offline_scan_body|auto].
Qed.

Lemma offline_use_scans_response a resp results :
  offline (use_scans_response a resp results).
Proof.
  unfold use_scans_response. repeat first [apply offline_scans_loop|offline_step].
Qed.

Lemma make_request_requests srv endpoint w :
  requests (snd (_make_request srv "GET" endpoint None w))
  = requests w ++ [request_of "GET" endpoint None].
Proof.
  unfold _make_request. run.
  match goal with
  | |- context [srv ?h ?r] => destruct (srv h r) as [b|e t|e]
  end; [reflexivity|destruct t; reflexivity|reflexivity].
Qed.

Lemma get_analysis_scans_requests srv id w :
  requests (snd (get_analysis_scans srv id w)) = requests w ++ [scans_request id].
Proof.
  unfold get_analysis_scans, mbind, M_bind, bind. rewrite print_printed.
  cbv beta iota. rewrite make_request_requests. reflexivity.
Qed.

Lemma analysis_body_requests srv analysis a results w :
  read_analysis analysis = Ok a ->
  requests (snd (analysis_body srv analysis results w))
  = requests w ++ [scans_request (af_id a)].
Proof.
  intros Hread. unfold analysis_body.
  unfold mbind at 1, M_bind, bind, lift. rewrite Hread.
  unfold mbind at 1, M_bind, bind. rewrite print_printed. cbv beta iota.
  unfold mbind at 1, M_bind, bind.
  match goal with
  | |- context [get_analysis_scans srv ?id ?w0] =>
      pose proof (get_analysis_scans_requests srv id w0) as Hsent;
      destruct (get_analysis_scans srv id w0) as [[body|e] w1]
  end; simpl in Hsent; [|exact Hsent].
  destruct (use_scans_response a body results w1) as [res w'] eqn:Huse.
  simpl. rewrite (offline_use_scans_response _ _ _ _ _ _ Huse). exact Hsent.
Qed.

Lemma read_analysis_id analysis a :
  read_analysis analysis = Ok a ->
  py_get analysis "analysis_id" JNull = Ok (af_id a).
Proof.
  unfold read_analysis. run.
  destruct (py_get analysis "analysis_id" JNull); [|discriminate].
  destruct (py_get analysis "name" (JStr "Unknown")); [|discriminate].
  destruct (py_get analysis "application" (JObj [])) as [p|]; [|discriminate].
  destruct (py_get p "name" (JStr "Unknown")); [|discriminate].
  intros [= <-]. reflexivity.
Qed.

Lemma analyses_loop_requests srv analyses : forall results w rs w',
  analyses_loop srv analyses results w = (Ok rs, w') ->
  exists ids,
    Forall2 (fun analysis id => py_get analysis "analysis_id" JNull = Ok id)
            analyses ids /\
    requests w' = requests w ++ map scans_request ids.
Proof.
  induction analyses as [|analysis rest IH]; intros results w rs w'; simpl.
  - intros [= <- <-]. exists []. rewrite app_nil_r. split; [constructor|reflexivity].
  - unfold mbind at 1, M_bind, bind.
    destruct (analysis_body srv analysis results w) as [[rs1|] w1] eqn:Hbody;
      [|discriminate].
    intros Hloop. destruct (IH _ _ _ _ Hloop) as (ids & Hids & Hreq).
    assert (Hread : exists a, read_analysis analysis = Ok a).
    { revert Hbody. unfold analysis_body, mbind at 1, M_bind, bind, lift.
      destruct (read_analysis analysis); [eauto|discriminate]. }
    destruct Hread as (a & Hread).
    pose proof (analysis_body_requests srv analysis a results w Hread) as Hsent.
    rewrite Hbody in Hsent. simpl in Hsent.
    exists (af_id a :: ids). split.
    + constructor; [apply read_analysis_id, Hread|exact Hids].
    + rewrite Hreq, Hsent, <- app_assoc. reflexivity.
Qed.

(** X3. An extraction that returns after a successful analyses listing has
    sent the analyses request and then one scans request per listed
    analysis, in listing order, each for the [analysis_id] of that analysis
    ([None] when it has none): one plus the number of analyses requests,
    and nothing else. *)
Theorem extraction_sends_one_request_per_analysis srv w body items rs w' :
  srv (requests w) analyses_request = HttpOk body ->
  embedded_items body "analyses" = Ok (JArr items) ->
  extract_target_urls srv w = (Ok rs, w') ->
  exists ids,
    Forall2 (fun analysis id => py_get analysis "analysis_id" JNull = Ok id)
            items ids /\
    requests w' = requests w ++ analyses_request :: map scans_request ids /\
    length (requests w') = length (requests w) + 1 + length items.
Proof.
  intros Hanswer Hitems. unfold extract_target_urls, mbind at 1, M_bind, bind.
  rewrite (get_all_analyses_ok _ _ _ Hanswer).
  unfold use_analyses_response.
  assert (Hdone : forall ids,
    Forall2 (fun analysis id => py_get analysis "analysis_id" JNull = Ok id)
            items ids ->
    requests w' = requests w ++ analyses_request :: map scans_request ids ->
    length (requests w') = length (requests w) + 1 + length items).
  { intros ids Hids ->. rewrite length_app. simpl. rewrite length_map.
    rewrite (Forall2_length _ _ _ Hids). lia. }
  destruct (truthy body) eqn:Hbody; simpl.
  - unfold mbind at 1, M_bind, bind, lift. rewrite Hitems.
    destruct items as [|analysis rest]; simpl.
    + run. intros [= <- <-]. exists []. simpl.
      split; [constructor|]. split; [reflexivity|]. rewrite length_app. simpl. lia.
    + run. intros Hloop.
      apply (analyses_loop_requests srv (analysis :: rest)) in Hloop
        as (ids & Hids & Hreq).
      simpl in Hreq. rewrite <- app_assoc in Hreq. simpl in Hreq.
      exists ids. split; [exact Hids|]. split; [exact Hreq|]. eauto.
  - run. intros [= <- <-].
    destruct items as [|analysis rest].
    + exists []. simpl. split; [constructor|]. split; [reflexivity|].
      rewrite length_app. simpl. lia.
    + exfalso. destruct body as [|[]|n|s|[]|[]]; try discriminate.
Qed.

Lemma extraction_sends_one_request_per_analysis_witness :
  exists ids,
    Forall2 (fun analysis id => py_get analysis "analysis_id" JNull = Ok id)
      [Scenario.analysis "A1" "App Scan" "Shop";
       Scenario.analysis "A2" "Other Scan" "Blog"] ids /\
    requests (snd (extract_target_urls Scenario.flaky_server (start ∅)))
    = requests (start ∅) ++ analyses_request :: map scans_request ids /\
    length (requests (snd (extract_target_urls Scenario.flaky_server (start ∅))))
    = length (requests (start ∅)) + 1
      + length [Scenario.analysis "A1" "App Scan" "Shop";
                Scenario.analysis "A2" "Other Scan" "Blog"].
Proof.
  apply (extraction_sends_one_request_per_analysis Scenario.flaky_server (start ∅)
           (Scenario.page "analyses" [Scenario.analysis "A1" "App Scan" "Shop";
                                      Scenario.analysis "A2" "Other Scan" "Blog"])
           [Scenario.analysis "A1" "App Scan" "Shop";
            Scenario.analysis "A2" "Other Scan" "Blog"]
           [Scenario.shop_record]
           (snd (extract_target_urls Scenario.flaky_server (start ∅))));
    vm_compute; reflexivity.
Defined.

(** ** Malformed items *)

Lemma analyses_loop_app srv l1 l2 results w :
  analyses_loop srv (l1 ++ l2) results w =
    match analyses_loop srv l1 results w with
    | (Ok rs1, w1) => analyses_loop srv l2 rs1 w1
    | (Raise e, w1) => (Raise e, w1)
    end.
Proof.
  revert results w. induction l1 as [|x l1 IH]; intros results w; simpl.
  - reflexivity.
  - unfold mbind, M_bind, bind.
    destruct (analysis_body srv x results w) as [[rs1|e] w1]; [apply IH|reflexivity].
Qed.

Lemma scans_loop_app a l1 l2 results w :
  scans_loop a (l1 ++ l2) results w =
    match scans_loop a l1 results w with
    | (Ok rs1, w1) => scans_loop a l2 rs1 w1
    | (Raise e, w1) => (Raise e, w1)
    end.
Proof.
  revert results w. induction l1 as [|x l1 IH]; intros results w; simpl.
  - reflexivity.
  - unfold mbind, M_bind, bind.
    destruct (scan_body a x results w) as [[rs1|e] w1]; [apply IH|reflexivity].
Qed.

Lemma read_analysis_not_object analysis :
  (forall members, analysis <> JObj members) ->
  read_analysis analysis = Raise AttributeError.
Proof.
  intros Hnot. destruct analysis as [| | | | |members]; try reflexivity.
  destruct (Hnot members). reflexivity.
Qed.

(** X5. One analysis that is not an object stops the whole extraction:
    the loop raises [AttributeError] when it reaches it, without sending its
    scans request or looking at the analyses after it, and the records
    collected from the analyses before it are lost with the exception.
    This is unlike a failed scans listing, which skips one analysis. *)
Theorem malformed_analysis_aborts srv before bad rest results w rs1 w1 :
  analyses_loop srv before results w = (Ok rs1, w1) ->
  (forall members, bad <> JObj members) ->
  analyses_loop srv (before ++ bad :: rest) results w = (Raise AttributeError, w1).
Proof.
  intros Hbefore Hbad. rewrite analyses_loop_app, Hbefore. simpl.
  unfold mbind, M_bind, bind, analysis_body.
  unfold mbind, M_bind, bind, lift.
  rewrite (read_analysis_not_object _ Hbad). reflexivity.
Qed.

Lemma malformed_analysis_aborts_witness :
  analyses_loop Scenario.shop_server
    ([Scenario.analysis "A1" "App Scan" "Shop"] ++ JStr "A2" :: [])
    [] (start ∅)
  = (Raise AttributeError,
     snd (analyses_loop Scenario.shop_server
            [Scenario.analysis "A1" "App Scan" "Shop"] [] (start ∅))).
Proof.
  apply (malformed_analysis_aborts Scenario.shop_server
           [Scenario.analysis "A1" "App Scan" "Shop"] (JStr "A2") [] []
           (start ∅) [Scenario.shop_record]).
  - reflexivity.
  - discriminate.
Defined.

Lemma scan_record_not_ok a scan :
  scan_ok scan = false -> scan_record a scan = Raise AttributeError.
Proof.
  destruct scan as [| | | | |members]; try reflexivity.
  unfold scan_ok, scan_record. run.
  destruct (assoc "latest_occurrence_status" members) as [[]|]; try discriminate;
    intros _;
    destruct (assoc "target_url" members), (assoc "scan_id" members),
      (assoc "application_name" members), (assoc "scan_config_name" members);
    reflexivity.
Qed.

(** X6. A scan that is not an object, or whose [latest_occurrence_status]
    is present and not an object, makes the scans loop raise
    [AttributeError] when it reaches it, whether or not the scan has a
    target URL: the status is read before the target URL is tested.  The
    records collected before are lost with the exception. *)
Theorem malformed_scan_aborts a before bad rest results w rs1 w1 :
  scans_loop a before results w = (Ok rs1, w1) ->
  scan_ok bad = false ->
  scans_loop a (before ++ bad :: rest) results w = (Raise AttributeError, w1).
Proof.
  intros Hbefore Hbad. rewrite scans_loop_app, Hbefore. simpl.
  unfold mbind, M_bind, bind, scan_body.
  unfold mbind, M_bind, bind, lift.
  rewrite (scan_record_not_ok _ _ Hbad). reflexivity.
Qed.

Lemma malformed_scan_aborts_witness :
  scans_loop Scenario.shop_fields
    ([Scenario.shop_scan] ++ Scenario.odd_status_scan :: [Scenario.bare_scan])
    [] (start ∅)
  = (Raise AttributeError,
     snd (scans_loop Scenario.shop_fields [Scenario.shop_scan] [] (start ∅))).
Proof.
  apply (malformed_scan_aborts Scenario.shop_fields [Scenario.shop_scan]
           Scenario.odd_status_scan [Scenario.bare_scan] [] (start ∅)
           [Scenario.shop_record]); reflexivity.
Defined.

(** X7. When the item list of the analyses page is true in a boolean
    context and not a list, the extraction raises and returns no result
    set, and no scans request is sent: [len] raises [TypeError] on a
    number or [True]; the loop runs over the characters of a string or the
    keys of an object, and the first [.get] on one raises
    [AttributeError]. *)
Theorem analyses_must_be_a_list srv body l results w :
  truthy body = true ->
  embedded_items body "analyses" = Ok l -> truthy l = true ->
  (forall items, l <> JArr items) ->
  exists e w',
    use_analyses_response srv body results w = (Raise e, w') /\
    (e = TypeError \/ e = AttributeError) /\
    requests w' = requests w /\ files w' = files w.
Proof.
  intros Hbody Hitems Hl Hnot. unfold use_analyses_response.
  rewrite Hbody. simpl. unfold mbind at 1, M_bind, bind, lift.
  rewrite Hitems, Hl. simpl.
  destruct l as [|[]|n|s|items|members]; try discriminate.
  - eexists _, _. split; [reflexivity|]. auto.
  - eexists _, _. split; [reflexivity|]. auto.
  - destruct s as [|c s]; [discriminate|].
    eexists _, _. split; [reflexivity|]. simpl. auto.
  - destruct (Hnot items). reflexivity.
  - destruct members as [|[k v] members]; [discriminate|].
    eexists _, _. split; [reflexivity|]. simpl. auto.
Qed.

Lemma analyses_must_be_a_list_witness :
  exists e w',
    use_analyses_response Scenario.keyed_analyses_server
      (JObj [("_embedded", JObj [("analyses", JObj [("A1", JStr "App Scan")])])])
      [] (start ∅) = (Raise e, w') /\
    (e = TypeError \/ e = AttributeError) /\
    requests w' = requests (start ∅) /\ files w' = files (start ∅).
Proof.
  apply (analyses_must_be_a_list Scenario.keyed_analyses_server
           (JObj [("_embedded", JObj [("analyses", JObj [("A1", JStr "App Scan")])])])
           (JObj [("A1", JStr "App Scan")]) [] (start ∅));
    try reflexivity.
  discriminate.
Defined.

(** ** The fields of a record *)

Lemma scan_record_fields a members r :
  scan_record a (JObj members) = Ok (Some r) ->
  r = mkResult (af_id a) (af_name a)
        (field members "application_name" (af_app_name a))
        (field members "scan_id" JNull)
        (field members "scan_config_name" (JStr "N/A"))
        (field members "target_url" JNull)
        (match assoc "latest_occurrence_status" members with
         | Some (JObj occurrence) => field occurrence "status_type" (JStr "Unknown")
         | _ => JStr "Unknown"
         end)
        (field members "created_on" (JStr "Unknown"))
        (field members "last_modified_on" (JStr "Unknown")).
Proof.
  unfold scan_record, field. run.
  destruct (assoc "target_url" members) as [u|]; simpl;
    destruct (assoc "scan_id" members), (assoc "application_name" members),
      (assoc "scan_config_name" members),
      (assoc "latest_occurrence_status" members) as [[| | | | |o]|]; simpl;
    try discriminate;
    try destruct (assoc "status_type" o); simpl;
    try destruct (truthy u); simpl; try discriminate;
    destruct (assoc "created_on" members), (assoc "last_modified_on" members);
    simpl; intros [= <-]; reflexivity.
Qed.

Lemma read_analysis_fields members a :
  read_analysis (JObj members) = Ok a ->
  af_id a = field members "analysis_id" JNull /\
  af_name a = field members "name" (JStr "Unknown").
Proof.
  unfold read_analysis, field. run.
  destruct (assoc "analysis_id" members), (assoc "name" members),
    (assoc "application" members) as [[| | | | |app]|]; simpl; try discriminate;
    try destruct (assoc "name" app); simpl; intros [= <-]; auto.
Qed.

(** X8. The nine fields of a record, read off the analysis and the scan it
    was built from: a key that is missing gives the placeholder ([None] for
    the two ids, "N/A" for the scan configuration, "Unknown" for the other
    names, the status and the dates), and a key that is present gives its
    value as it is, [null] included. *)
Theorem record_fields_default analysis scan a r :
  read_analysis (JObj analysis) = Ok a ->
  scan_record a (JObj scan) = Ok (Some r) ->
  analysis_id r = field analysis "analysis_id" JNull /\
  analysis_name r = field analysis "name" (JStr "Unknown") /\
  application_name r = field scan "application_name" (af_app_name a) /\
  scan_id r = field scan "scan_id" JNull /\
  scan_config_name r = field scan "scan_config_name" (JStr "N/A") /\
  target_url r = field scan "target_url" JNull /\
  latest_status r =
    match assoc "latest_occurrence_status" scan with
    | Some (JObj occurrence) => field occurrence "status_type" (JStr "Unknown")
    | _ => JStr "Unknown"
    end /\
  created_on r = field scan "created_on" (JStr "Unknown") /\
  last_modified_on r = field scan "last_modified_on" (JStr "Unknown").
Proof.
  intros Hread Hrec. apply read_analysis_fields in Hread as [Hid Hname].
  rewrite (scan_record_fields _ _ _ Hrec). simpl. rewrite Hid, Hname.
  repeat split.
Qed.

Lemma record_fields_default_witness :
  analysis_id Scenario.shop_record = JStr "A1" /\
  analysis_name Scenario.shop_record = JStr "App Scan" /\
  application_name Scenario.shop_record = JStr "Shop" /\
  scan_id Scenario.shop_record = JStr "S1" /\
  scan_config_name Scenario.shop_record = JStr "N/A" /\
  target_url Scenario.shop_record = JStr "https://shop.example.com" /\
  latest_status Scenario.shop_record = JStr "Unknown" /\
  created_on Scenario.shop_record = JStr "Unknown" /\
  last_modified_on Scenario.shop_record = JStr "Unknown".
Proof.
  apply (record_fields_default
           [("analysis_id", JStr "A1"); ("name", JStr "App Scan");
            ("application", JObj [("name", JStr "Shop")])]
           [("scan_id", JStr "S1"); ("target_url", JStr "https://shop.example.com")]
           Scenario.shop_fields Scenario.shop_record); reflexivity.
Defined.

(** A key that is present with [null] is not replaced by the placeholder. *)
Lemma null_is_not_defaulted :
  scan_record Scenario.shop_fields
    (JObj [("target_url", JStr "https://shop.example.com");
           ("scan_config_name", JNull)])
  = Ok (Some (mkResult (JStr "A1") (JStr "App Scan") (JStr "Shop") JNull JNull
                (JStr "https://shop.example.com") (JStr "Unknown")
                (JStr "Unknown") (JStr "Unknown"))).
Proof. reflexivity. Qed.

(** ** Records and their analysis *)

Lemma appends_with_refl Q results : appends_with Q results results.
Proof. exists []. rewrite app_nil_r. split; [reflexivity|constructor]. Qed.

Lemma appends_with_trans Q r1 r2 r3 :
  appends_with Q r1 r2 -> appends_with Q r2 r3 -> appends_with Q r1 r3.
Proof.
  intros (a1 & -> & H1) (a2 & -> & H2). exists (a1 ++ a2).
  rewrite app_assoc. split; [reflexivity|]. apply Forall_app; auto.
Qed.

Lemma scan_record_analysis a scan r :
  scan_record a scan = Ok (Some r) ->
  analysis_id r = af_id a /\ analysis_name r = af_name a.
Proof.
  destruct scan as [| | | | |members]; try discriminate.
  intros Hrec. rewrite (scan_record_fields _ _ _ Hrec). auto.
Qed.

Lemma scans_loop_appends_with a scans : forall results w rs w',
  scans_loop a scans results w = (Ok rs, w') ->
  appends_with (fun r => analysis_id r = af_id a /\ analysis_name r = af_name a)
    results rs.
Proof.
  induction scans as [|scan rest IH]; intros results w rs w'; simpl.
  - intros [= <- <-]. apply appends_with_refl.
  - unfold mbind at 1, M_bind, bind, scan_body.
    unfold mbind at 1, M_bind, bind, lift.
    destruct (scan_record a scan) as [[r|]|] eqn:Hrec; try discriminate.
    + run. intros Hloop. eapply appends_with_trans; [|eapply IH, Hloop].
      exists [r]. split; [reflexivity|]. constructor; [|constructor].
      eapply scan_record_analysis, Hrec.
    + run. apply IH.
Qed.

Lemma analysis_body_appends_with srv analysis results w rs w' :
  analysis_body srv analysis results w = (Ok rs, w') ->
  exists a,
    read_analysis analysis = Ok a /\
    appends_with (fun r => analysis_id r = af_id a /\ analysis_name r = af_name a)
      results rs.
Proof.
  unfold analysis_body, mbind at 1, M_bind, bind, lift.
  destruct (read_analysis analysis) as [a|]; [|discriminate].
  unfold mbind at 1, M_bind, bind. rewrite print_printed. cbv beta iota.
  unfold mbind at 1, M_bind, bind.
  match goal with
  | |- context [get_analysis_scans srv ?id ?w0] =>
      destruct (get_analysis_scans srv id w0) as [[resp|] w1]
  end; [|discriminate].
  intros Huse. exists a. split; [reflexivity|]. revert Huse.
  unfold use_scans_response. destruct (truthy resp); simpl.
  - unfold mbind, M_bind, bind, lift.
    destruct (embedded_items resp "scans") as [s|]; [|discriminate].
    destruct (py_iter s) as [items|]; [|discriminate].
    apply scans_loop_appends_with.
  - run. intros [= <- <-]. apply appends_with_refl.
Qed.

(** X9. The records one analysis adds to the result set all carry the id
    and the name read from that analysis, whatever the scans say: a scan
    cannot override them, unlike the application name. *)
Theorem records_carry_their_analysis srv analysis results w rs w' :
  analysis_body srv analysis results w = (Ok rs, w') ->
  exists a,
    read_analysis analysis = Ok a /\
    appends_with (fun r => analysis_id r = af_id a /\ analysis_name r = af_name a)
      results rs.
Proof. apply analysis_body_appends_with. Qed.

Lemma records_carry_their_analysis_witness :
  exists a,
    read_analysis (Scenario.analysis "A1" "App Scan" "Shop") = Ok a /\
    appends_with (fun r => analysis_id r = af_id a /\ analysis_name r = af_name a)
      [] [Scenario.shop_record].
Proof.
  apply (records_carry_their_analysis Scenario.shop_server
           (Scenario.analysis "A1" "App Scan" "Shop") [] (start ∅)
           [Scenario.shop_record]
           (snd (analysis_body Scenario.shop_server
                   (Scenario.analysis "A1" "App Scan" "Shop") [] (start ∅)))).
  reflexivity.
Defined.

(** X10. An analysis without [analysis_id] is not skipped: its scans are
    requested for [None], with the one request of that turn, and every
    record built from the answer has [None] as its analysis id. *)
Theorem missing_analysis_id_is_requested_as_none srv members results w rs w' :
  assoc "analysis_id" members = None ->
  analysis_body srv (JObj members) results w = (Ok rs, w') ->
  requests w' = requests w ++ [scans_request JNull] /\
  appends_with (fun r => analysis_id r = JNull) results rs.
Proof.
  intros Hnone Hbody.
  destruct (analysis_body_appends_with _ _ _ _ _ _ Hbody)
    as (a & Hread & added & -> & Hadded).
  destruct (read_analysis_fields _ _ Hread) as [Hid _].
  unfold field in Hid. rewrite Hnone in Hid.
  pose proof (analysis_body_requests srv (JObj members) a results w Hread) as Hsent.
  rewrite Hbody, Hid in Hsent. split; [exact Hsent|].
  exists added. split; [reflexivity|].
  eapply Forall_impl; [exact Hadded|]. intros r [Hr _]. congruence.
Qed.

Lemma missing_analysis_id_is_requested_as_none_witness :
  requests (snd (analysis_body Scenario.one_scan_server
                   Scenario.nameless_analysis [] (start ∅)))
  = requests (start ∅) ++ [scans_request JNull] /\
  appends_with (fun r => analysis_id r = JNull) []
    [mkResult JNull (JStr "App Scan") (JStr "Unknown") (JStr "S1") (JStr "N/A")
       (JStr "https://shop.example.com") (JStr "Unknown") (JStr "Unknown")
       (JStr "Unknown")].
Proof.
  apply (missing_analysis_id_is_requested_as_none Scenario.one_scan_server
           [("name", JStr "App Scan")] [] (start ∅)
           [mkResult JNull (JStr "App Scan") (JStr "Unknown") (JStr "S1")
              (JStr "N/A") (JStr "https://shop.example.com") (JStr "Unknown")
              (JStr "Unknown") (JStr "Unknown")]
           (snd (analysis_body Scenario.one_scan_server
                   Scenario.nameless_analysis [] (start ∅))));
    reflexivity.
Defined.

(** ** More on grouping *)

Lemma dict_store_new {V} (d : pydict V) k v :
  dict_find d k = None -> dict_store d k v = d ++ [(k, v)].
Proof.
  induction d as [|[k' v'] d IH]; simpl; [reflexivity|].
  destruct (key_eqb k' k); [discriminate|]. intros H. rewrite IH by exact H.
  reflexivity.
Qed.

Lemma dict_store_grows (d : pydict (list ResultRecord)) k l r :
  dict_find d k = Some l ->
  concat (map snd (dict_store d k (l ++ [r]))) ≡ₚ concat (map snd d) ++ [r].
Proof.
  induction d as [|[k' v'] d IH]; simpl; [discriminate|].
  destruct (key_eqb k' k).
  - intros [= ->]. simpl. rewrite <- !app_assoc.
    apply Permutation_app_head, Permutation_app_comm.
  - intros H. simpl. rewrite <- app_assoc. apply Permutation_app_head, IH, H.
Qed.

Lemma group_step_grows apps r apps' :
  group_step apps r = Ok apps' ->
  concat (map snd apps') ≡ₚ concat (map snd apps) ++ [r].
Proof.
  unfold group_step, dict_contains, dict_getitem, dict_setitem.
  destruct (hashable (application_name r)) eqn:Hk; [|discriminate]. run.
  destruct (dict_find apps (application_name r)) as [l|] eqn:Hfind; simpl.
  - rewrite Hfind. intros [= <-]. apply dict_store_grows, Hfind.
  - rewrite dict_store_new by exact Hfind.
    rewrite dict_find_last by assumption.
    rewrite dict_store_last by assumption.
    intros [= <-]. rewrite map_app, concat_app. simpl. rewrite ?app_nil_r.
    reflexivity.
Qed.

Lemma group_loop_grows rs : forall apps apps',
  group_loop rs apps = Ok apps' ->
  concat (map snd apps') ≡ₚ concat (map snd apps) ++ rs.
Proof.
  induction rs as [|r rs IH]; intros apps apps'; simpl.
  - intros [= <-]. rewrite app_nil_r. reflexivity.
  - unfold mbind, pyresult_bind, rbind.
    destruct (group_step apps r) as [apps1|] eqn:Hstep; [|discriminate].
    intros Hloop. rewrite (IH _ _ Hloop), (group_step_grows _ _ _ Hstep).
    rewrite <- app_assoc. reflexivity.
Qed.

(** X11. When the grouping returns, its groups together hold every record
    of the result set exactly once: nothing is dropped and nothing is
    repeated in the report, and the group sizes add up to the number of
    records. *)
Theorem grouping_keeps_every_record rs apps :
  group_by_application rs = Ok apps ->
  concat (map snd apps) ≡ₚ rs /\
  length (concat (map snd apps)) = length rs.
Proof.
  intros Hgroup. apply group_loop_grows in Hgroup. simpl in Hgroup.
  split; [exact Hgroup|]. rewrite Hgroup. reflexivity.
Qed.

Lemma grouping_keeps_every_record_witness :
  concat (map snd [(JStr "Shop", [Scenario.shop_record; Scenario.shop_admin_record]);
                   (JStr "Blog", [Scenario.blog_record])])
  ≡ₚ [Scenario.shop_record; Scenario.blog_record; Scenario.shop_admin_record] /\
  length (concat (map snd [(JStr "Shop", [Scenario.shop_record;
                                          Scenario.shop_admin_record]);
                           (JStr "Blog", [Scenario.blog_record])]))
  = length [Scenario.shop_record; Scenario.blog_record; Scenario.shop_admin_record].
Proof.
  apply (grouping_keeps_every_record
           [Scenario.shop_record; Scenario.blog_record; Scenario.shop_admin_record]
           [(JStr "Shop", [Scenario.shop_record; Scenario.shop_admin_record]);
            (JStr "Blog", [Scenario.blog_record])]).
  reflexivity.
Defined.

Lemma all_hashable_Forall rs :
  all_hashable rs = true ->
  Forall (fun r => hashable (application_name r) = true) rs.
Proof.
  unfold all_hashable. rewrite forallb_forall. intros H.
  apply Forall_forall. intros r Hr. apply H, list_elem_of_In, Hr.
Qed.

Lemma group_loop_unhashable rs : forall pre,
  all_hashable rs = false -> group_loop rs (grouped pre) = Raise TypeError.
Proof.
  induction rs as [|r rs IH]; intros pre; simpl; [discriminate|].
  unfold mbind, pyresult_bind, rbind.
  destruct (hashable (application_name r)) eqn:Hk; simpl.
  - intros Hrest. rewrite group_step_grouped by exact Hk. apply IH, Hrest.
  - intros _. unfold group_step, dict_contains. rewrite Hk. reflexivity.
Qed.

Lemma group_by_application_outcome rs :
  group_by_application rs =
    if all_hashable rs then Ok (grouped rs) else Raise TypeError.
Proof.
  destruct (all_hashable rs) eqn:Hall.
  - apply group_by_application_grouped, all_hashable_Forall, Hall.
  - exact (group_loop_unhashable rs [] Hall).
Qed.

(** X12. The grouping has two outcomes only.  When every application name
    can be a dict key it returns the groups; as soon as one is a list or an
    object it raises [TypeError], whatever was grouped before.  It never
    raises [KeyError]: the key read by [apps[app_name]] was stored just
    before when it was missing. *)
Theorem grouping_raises_only_type_error rs :
  group_by_application rs =
    (if all_hashable rs then Ok (grouped rs) else Raise TypeError) /\
  group_by_application rs <> Raise KeyError.
Proof.
  rewrite group_by_application_outcome.
  split; [reflexivity|]. destruct (all_hashable rs); discriminate.
Qed.

(** ** The whole run *)

Lemma print_answers_prints w : print_answers w = (Ok tt, printed w answer_lines).
Proof.
  unfold print_answers. run. unfold printed. simpl.
  rewrite <- !app_assoc. reflexivity.
Qed.

Lemma main_unfold srv w :
  main srv w =
    match extract_target_urls srv (printed w [banner]) with
    | (Ok rs, w1) =>
        match report rs (printed w1 (results_lines rs)) with
        | (Ok _, w2) => print_answers w2
        | (Raise e, w2) => (Raise e, w2)
        end
    | (Raise e, w1) => (Raise e, w1)
    end.
Proof.
  unfold main. unfold mbind at 1, M_bind, bind. rewrite print_printed.
  cbv beta iota. fold banner. unfold mbind at 1, M_bind, bind.
  destruct (extract_target_urls srv (printed w [banner])) as [[rs|e] w1];
    [|reflexivity].
  unfold mbind at 1, M_bind, bind. rewrite print_printed. cbv beta iota.
  unfold mbind at 1, M_bind, bind. rewrite print_printed. cbv beta iota.
  rewrite printed_printed.
  change (printed w1 _) with (printed w1 (results_lines rs)).
  unfold mbind at 1, M_bind, bind.
  destruct (report rs (printed w1 (results_lines rs))) as [[[]|e] w2]; reflexivity.
Qed.

Lemma report_outcome rs w :
  report rs w =
    match rs with
    | [] => (Ok tt, printed w [[Lit "No target URLs found."]])
    | _ :: _ =>
        if all_hashable rs then
          (Ok tt,
           World (requests w)
                 (console (snd (report rs w)))
                 (opened w ++ [output_file])
                 (<[output_file := json_dump rs]> (files w)))
        else
          (Raise TypeError,
           printed w [[Lit NL; Lit "Target URLs by Application:"];
                      [Lit (string_repeat "-" 80)]])
    end.
Proof.
  destruct rs as [|r rs]; [reflexivity|].
  pose proof (report_nonempty r rs w) as Hrep.
  rewrite group_by_application_outcome in Hrep.
  destruct (all_hashable (r :: rs)) eqn:Hall.
  - destruct Hrep as (out & ->). reflexivity.
  - clear Hrep. unfold report.
    unfold mbind at 1, M_bind, bind. rewrite print_printed. cbv beta iota.
    unfold mbind at 1, M_bind, bind. rewrite print_printed. cbv beta iota.
    unfold mbind at 1, M_bind, bind, lift.
    rewrite group_by_application_outcome, Hall, printed_printed. reflexivity.
Qed.

(** X13. A result set with an application name that cannot be a dict key
    makes the reporter raise [TypeError] after its two heading lines: no
    group is printed and the output file is neither opened nor written,
    although the records were extracted. *)
Theorem report_unhashable_name_raises rs w :
  rs <> [] -> all_hashable rs = false ->
  report rs w =
    (Raise TypeError,
     printed w [[Lit NL; Lit "Target URLs by Application:"];
                [Lit (string_repeat "-" 80)]]) /\
  files (snd (report rs w)) = files w /\ opened (snd (report rs w)) = opened w.
Proof.
  intros Hne Hall. rewrite report_outcome, Hall.
  destruct rs; [congruence|]. simpl. auto.
Qed.

Lemma report_unhashable_name_raises_witness :
  report [Scenario.list_named_record] (start ∅) =
    (Raise TypeError,
     printed (start ∅) [[Lit NL; Lit "Target URLs by Application:"];
                        [Lit (string_repeat "-" 80)]]) /\
  files (snd (report [Scenario.list_named_record] (start ∅))) = files (start ∅) /\
  opened (snd (report [Scenario.list_named_record] (start ∅))) = opened (start ∅).
Proof.
  apply (report_unhashable_name_raises [Scenario.list_named_record] (start ∅));
    [discriminate|reflexivity].
Defined.

Lemma report_frame rs w path :
  path <> output_file ->
  files (snd (report rs w)) !! path = files w !! path.
Proof.
  intros Hpath. rewrite report_outcome.
  destruct rs as [|r rs]; [reflexivity|].
  destruct (all_hashable (r :: rs)); [|reflexivity].
  simpl. apply lookup_insert_ne. congruence.
Qed.

Lemma report_requests rs w : requests (snd (report rs w)) = requests w.
Proof.
  rewrite report_outcome. destruct rs as [|r rs]; [reflexivity|].
  destruct (all_hashable (r :: rs)); reflexivity.
Qed.

Lemma report_opened rs w :
  opened (snd (report rs w)) = opened w \/
  opened (snd (report rs w)) = opened w ++ [output_file].
Proof.
  rewrite report_outcome. destruct rs as [|r rs]; [left; reflexivity|].
  destruct (all_hashable (r :: rs)); [right|left]; reflexivity.
Qed.

(** X14. Whatever the API answers and however the run ends, [main] changes
    no file other than the output file and opens no other file, and the
    requests it sends are those of the extraction. *)
Theorem main_touches_only_the_output_file srv w :
  (forall path, path <> output_file ->
                files (snd (main srv w)) !! path = files w !! path) /\
  (opened (snd (main srv w)) = opened w \/
   opened (snd (main srv w)) = opened w ++ [output_file]) /\
  requests (snd (main srv w))
  = requests (snd (extract_target_urls srv (printed w [banner]))).
Proof.
  rewrite main_unfold.
  destruct (extract_target_urls srv (printed w [banner])) as [[rs|e] w1] eqn:Hrun.
  - destruct (quiet_extract_target_urls srv _ _ _ Hrun) as (_ & _ & Ho & Hf).
    simpl in Ho, Hf.
    pose proof (fun path => report_frame rs (printed w1 (results_lines rs)) path)
      as Hframe.
    pose proof (report_requests rs (printed w1 (results_lines rs))) as Hreq.
    pose proof (report_opened rs (printed w1 (results_lines rs))) as Hopen.
    destruct (report rs (printed w1 (results_lines rs))) as [[[]|e] w2];
      rewrite ?print_answers_prints; simpl in *;
      rewrite <- Hf, <- Ho; auto.
  - destruct (quiet_extract_target_urls srv _ _ _ Hrun) as (_ & _ & Ho & Hf).
    simpl in *. rewrite Hf, Ho. auto.
Qed.

Lemma main_touches_only_the_output_file_witness :
  files (snd (main Scenario.shop_server (start {["notes.txt" := "keep"]})))
    !! "notes.txt"
  = files (start {["notes.txt" := "keep"]}) !! "notes.txt".
Proof.
  apply (proj1 (main_touches_only_the_output_file Scenario.shop_server
                  (start {["notes.txt" := "keep"]}))).
  discriminate.
Defined.

(** X15. When the extraction returns no record, as it does when the
    analyses listing fails, [main] still ends normally: it prints a total of
    zero, the line "No target URLs found." and the closing answers, and
    leaves the file system as it was. *)
Theorem main_without_results_ends_normally srv w w1 :
  extract_target_urls srv (printed w [banner]) = (Ok [], w1) ->
  main srv w =
    (Ok tt, printed w1 (results_lines [] ++ [[Lit "No target URLs found."]]
                        ++ answer_lines)) /\
  files (snd (main srv w)) = files w /\ opened (snd (main srv w)) = opened w.
Proof.
  intros Hrun. rewrite main_unfold, Hrun. simpl report.
  rewrite print_printed, print_answers_prints, !printed_printed.
  destruct (quiet_extract_target_urls srv _ _ _ Hrun) as (_ & _ & Ho & Hf).
  split; [rewrite <- ?app_assoc; reflexivity|]. simpl. auto.
Qed.

Lemma main_without_results_ends_normally_witness :
  main Scenario.down_server (start ∅) =
    (Ok tt,
     printed (snd (extract_target_urls Scenario.down_server
                     (printed (start ∅) [banner])))
       (results_lines [] ++ [[Lit "No target URLs found."]] ++ answer_lines)) /\
  files (snd (main Scenario.down_server (start ∅))) = files (start ∅) /\
  opened (snd (main Scenario.down_server (start ∅))) = opened (start ∅).
Proof.
  apply (main_without_results_ends_normally Scenario.down_server (start ∅)).
  reflexivity.
Defined.

(** X16. An exception of the extraction is not caught by [main]: the run
    ends with it where the extraction stopped, before the results heading,
    the report and the closing answers, and without touching a file. *)
Theorem main_lets_exceptions_escape srv w e w1 :
  extract_target_urls srv (printed w [banner]) = (Raise e, w1) ->
  main srv w = (Raise e, w1) /\ files w1 = files w /\ opened w1 = opened w.
Proof.
  intros Hrun. rewrite main_unfold, Hrun.
  destruct (quiet_extract_target_urls srv _ _ _ Hrun) as (_ & _ & Ho & Hf).
  auto.
Qed.

Lemma main_lets_exceptions_escape_witness :
  main Scenario.keyed_analyses_server (start ∅) =
    (Raise AttributeError,
     snd (extract_target_urls Scenario.keyed_analyses_server
            (printed (start ∅) [banner]))) /\
  files (snd (extract_target_urls Scenario.keyed_analyses_server
                (printed (start ∅) [banner]))) = files (start ∅) /\
  opened (snd (extract_target_urls Scenario.keyed_analyses_server
                 (printed (start ∅) [banner]))) = opened (start ∅).
Proof.
  apply (main_lets_exceptions_escape Scenario.keyed_analyses_server (start ∅)).
  reflexivity.
Defined.

Lemma shop_server_ok : server_ok Scenario.shop_server.
Proof.
  intros history r body. unfold Scenario.shop_server.
  destruct (req_url r) as [|p1 [|p2 [|[|[| |n|id| |]] [|p4 [|p5 rest]]]]];
    try discriminate; try (intros [= <-]; reflexivity).
  destruct (String.eqb id "A1"); [intros [= <-]; reflexivity|discriminate].
Qed.

(** X17. A run whose extraction returns records with application names
    that can be dict keys ends normally, having sent the requests of the
    extraction only and opened and written one file, the output file, with
    the text [json.dump] gives for the records; the console ends with the
    closing answers. *)
Theorem main_writes_the_result_set srv w rs w1 :
  extract_target_urls srv (printed w [banner]) = (Ok rs, w1) ->
  rs <> [] -> all_hashable rs = true ->
  exists w',
    main srv w = (Ok tt, w') /\
    requests w' = requests w1 /\
    opened w' = opened w ++ [output_file] /\
    files w' = <[output_file := json_dump rs]> (files w) /\
    exists out, console w' = out ++ answer_lines.
Proof.
  intros Hrun Hne Hall.
  destruct (quiet_extract_target_urls srv _ _ _ Hrun) as (_ & _ & Ho & Hf).
  rewrite main_unfold, Hrun, report_outcome, Hall.
  destruct rs as [|r rs]; [congruence|]. cbv beta iota.
  rewrite print_answers_prints. eexists. split; [reflexivity|].
  simpl in *. rewrite Ho, Hf. repeat split. eexists. reflexivity.
Qed.

Lemma main_writes_the_result_set_witness :
  exists w',
    main Scenario.shop_server (start ∅) = (Ok tt, w') /\
    requests w'
    = requests (snd (extract_target_urls Scenario.shop_server
                       (printed (start ∅) [banner]))) /\
    opened w' = opened (start ∅) ++ [output_file] /\
    files w' = <[output_file := json_dump [Scenario.shop_record]]> (files (start ∅)) /\
    exists out, console w' = out ++ answer_lines.
Proof.
  apply (main_writes_the_result_set Scenario.shop_server (start ∅)
           [Scenario.shop_record]
           (snd (extract_target_urls Scenario.shop_server
                   (printed (start ∅) [banner])))).
  - reflexivity.
  - discriminate.
  - reflexivity.
Defined.

(** ** The two listings *)

Lemma get_all_analyses_raise srv w e :
  srv (requests w) analyses_request = HttpRaise e ->
  get_all_analyses srv w =
    (Raise e, World (requests w ++ [analyses_request])
                    (console w ++ [[Lit "Fetching all analyses..."]])
                    (opened w) (files w)).
Proof.
  intros H. unfold get_all_analyses, _make_request. run.
  fold analyses_request. rewrite H. reflexivity.
Qed.

Lemma get_analysis_scans_raise srv id w e :
  srv (requests w) (scans_request id) = HttpRaise e ->
  get_analysis_scans srv id w =
    (Raise e, World (requests w ++ [scans_request id])
                    (console w ++ [[Lit "Fetching scans for analysis ID: "; Interp id]])
                    (opened w) (files w)).
Proof.
  intros H. unfold get_analysis_scans, _make_request. run.
  fold (scans_request id). rewrite H. reflexivity.
Qed.

(** X18. Each listing function prints its progress line and then makes
    exactly one GET request without data, the analyses listing to the fixed
    analyses endpoint and the scans listing to the endpoint of the given
    analysis id, and touches no file.  It returns the decoded body, or
    [None] after the failure lines when the request failed with a
    [RequestException]; an exception of another class raised by the request
    escapes from it after the progress line. *)
Theorem listings_outcomes srv id w :
  get_all_analyses srv w =
    (match srv (requests w) analyses_request with
     | HttpOk body => Ok body
     | HttpFail _ _ => Ok JNull
     | HttpRaise e => Raise e
     end,
     World (requests w ++ [analyses_request])
           (console w ++ [Lit "Fetching all analyses..."]
              :: match srv (requests w) analyses_request with
                 | HttpFail e t => failure_lines e t
                 | _ => []
                 end)
           (opened w) (files w)) /\
  get_analysis_scans srv id w =
    (match srv (requests w) (scans_request id) with
     | HttpOk body => Ok body
     | HttpFail _ _ => Ok JNull
     | HttpRaise e => Raise e
     end,
     World (requests w ++ [scans_request id])
           (console w ++ [Lit "Fetching scans for analysis ID: "; Interp id]
              :: match srv (requests w) (scans_request id) with
                 | HttpFail e t => failure_lines e t
                 | _ => []
                 end)
           (opened w) (files w)) /\
  req_method analyses_request = "GET" /\ req_data analyses_request = None /\
  req_method (scans_request id) = "GET" /\ req_data (scans_request id) = None.
Proof.
  split; [|split; [|repeat split]].
  - destruct (srv (requests w) analyses_request) as [b|e t|e] eqn:Hanswer.
    + apply get_all_analyses_ok, Hanswer.
    + apply get_all_analyses_fail, Hanswer.
    + apply get_all_analyses_raise, Hanswer.
  - destruct (srv (requests w) (scans_request id)) as [b|e t|e] eqn:Hanswer.
    + apply get_analysis_scans_ok, Hanswer.
    + apply get_analysis_scans_fail, Hanswer.
    + apply get_analysis_scans_raise, Hanswer.
Qed.

(** Without credentials the analyses listing raises, and so does the
    extraction, after the one request. *)
Lemma extraction_without_credentials :
  extract_target_urls Scenario.no_credentials_server (start ∅)
  = (Raise (OtherError "VeracodeCredentialsError"),
     World [analyses_request] [[Lit "Fetching all analyses..."]] [] ∅).
Proof. reflexivity. Qed.

(** ** Discovery order *)

(** X19. Running the analyses loop over a list is running it over a first
    part and then over the rest, from the result set and the world the
    first part left.  The records of the first part come first in what is
    returned, after the records the loop started with. *)
Theorem analyses_loop_in_listing_order srv l1 l2 results w rs w' :
  analyses_loop srv (l1 ++ l2) results w = (Ok rs, w') ->
  exists rs1 w1,
    analyses_loop srv l1 results w = (Ok rs1, w1) /\
    analyses_loop srv l2 rs1 w1 = (Ok rs, w') /\
    results `prefix_of` rs1 /\ rs1 `prefix_of` rs.
Proof.
  rewrite analyses_loop_app.
  destruct (analyses_loop srv l1 results w) as [[rs1|e] w1] eqn:Hfirst;
    [|discriminate].
  intros Hrest. exists rs1, w1. split; [reflexivity|]. split; [exact Hrest|].
  destruct (analyses_loop_appends _ _ _ _ _ _ Hfirst) as (a1 & -> & _).
  destruct (analyses_loop_appends _ _ _ _ _ _ Hrest) as (a2 & -> & _).
  split; eexists; reflexivity.
Qed.

Lemma analyses_loop_in_listing_order_witness :
  exists rs1 w1,
    analyses_loop Scenario.flaky_server
      [Scenario.analysis "A1" "App Scan" "Shop"] [] (start ∅) = (Ok rs1, w1) /\
    analyses_loop Scenario.flaky_server
      [Scenario.analysis "A2" "Other Scan" "Blog"] rs1 w1
    = (Ok [Scenario.shop_record],
       snd (analyses_loop Scenario.flaky_server
              ([Scenario.analysis "A1" "App Scan" "Shop"]
               ++ [Scenario.analysis "A2" "Other Scan" "Blog"]) [] (start ∅))) /\
    [] `prefix_of` rs1 /\ rs1 `prefix_of` [Scenario.shop_record].
Proof.
  apply (analyses_loop_in_listing_order Scenario.flaky_server
           [Scenario.analysis "A1" "App Scan" "Shop"]
           [Scenario.analysis "A2" "Other Scan" "Blog"] [] (start ∅)).
  vm_compute. reflexivity.
Defined.

(** ** One record per fetched scan with a target URL *)

Lemma use_scans_response_total a body scans results w :
  truthy body = true ->
  listed_scans body = Ok scans ->
  Forall (fun scan => scan_ok scan = true) scans ->
  exists produced w',
    use_scans_response a body results w = (Ok (results ++ concat produced), w') /\
    Forall2 (produced_by a) scans produced.
Proof.
  intros Hbody Hlisted Hok. unfold use_scans_response. rewrite Hbody. simpl.
  revert Hlisted. unfold listed_scans, mbind at 1, pyresult_bind, rbind.
  destruct (embedded_items body "scans") as [s|] eqn:Hitems; [|discriminate].
  intros Hiter. unfold mbind, M_bind, bind, lift. rewrite Hiter.
  apply scans_loop_total, Hok.
Qed.

(** C2, amended. When the scans listing of an analysis is fetched and every
    scan in it is an object whose [latest_occurrence_status] is absent or
    an object, the turn of the analyses loop returns the records it had
    followed by what each scan of the listing produced, in order: nothing
    for a scan whose [target_url] is empty or absent, exactly one record,
    built from that scan and carrying its [target_url], for a scan whose
    [target_url] is non-empty. *)
Theorem fetched_scans_one_record_per_target_url
    srv analysis a body scans results w :
  read_analysis analysis = Ok a ->
  srv (requests w) (scans_request (af_id a)) = HttpOk body ->
  truthy body = true ->
  listed_scans body = Ok scans ->
  Forall (fun scan => scan_ok scan = true) scans ->
  exists produced w',
    analysis_body srv analysis results w = (Ok (results ++ concat produced), w') /\
    Forall2 (produced_by a) scans produced.
Proof.
  intros Hread Hanswer Hbody Hlisted Hok.
  unfold analysis_body, mbind at 1, M_bind, bind, lift. rewrite Hread.
  unfold mbind at 1, M_bind, bind. rewrite print_printed. cbv beta iota.
  unfold mbind at 1, M_bind, bind.
  match goal with
  | |- context [get_analysis_scans srv ?id ?w0] =>
      rewrite (get_analysis_scans_ok srv id w0 body Hanswer)
  end.
  apply use_scans_response_total; assumption.
Qed.

Lemma fetched_scans_one_record_per_target_url_witness :
  exists produced w',
    analysis_body Scenario.shop_server (Scenario.analysis "A1" "App Scan" "Shop")
      [] (start ∅)
    = (Ok ([] ++ concat produced), w') /\
    Forall2 (produced_by Scenario.shop_fields)
      [Scenario.shop_scan; Scenario.bare_scan] produced.
Proof.
  apply (fetched_scans_one_record_per_target_url Scenario.shop_server
           (Scenario.analysis "A1" "App Scan" "Shop") Scenario.shop_fields
           (Scenario.page "scans" [Scenario.shop_scan; Scenario.bare_scan])
           [Scenario.shop_scan; Scenario.bare_scan] [] (start ∅)).
  - reflexivity.
  - reflexivity.
  - reflexivity.
  - reflexivity.
  - repeat constructor.
Defined.

(** C2, as stated, fails on a fetched scan with a non-empty [target_url]
    and a [null] [latest_occurrence_status]: no record is produced for it,
    because line 102 raises before the test of line 104, and the exception
    ends the extraction. *)
Lemma null_status_scan_produces_no_record :
  listed_scans (Scenario.page "scans" [Scenario.null_status_scan])
  = Ok [Scenario.null_status_scan] /\
  py_get Scenario.null_status_scan "target_url" JNull
  = Ok (JStr "https://shop.example.com") /\
  truthy (JStr "https://shop.example.com") = true /\
  scan_record Scenario.shop_fields Scenario.null_status_scan
  = Raise AttributeError /\
  fst (analysis_body Scenario.null_status_server
         (Scenario.analysis "A1" "App Scan" "Shop") [] (start ∅))
  = Raise AttributeError /\
  fst (extract_target_urls Scenario.null_status_server (start ∅))
  = Raise AttributeError.
Proof. repeat split; reflexivity. Qed.

(** ** The application name of a produced record *)

Lemma read_analysis_owner_app_name amembers a :
  read_analysis (JObj amembers) = Ok a ->
  af_app_name a = owner_app_name amembers.
Proof.
  intros Hread. pose proof (read_analysis_app_name _ _ Hread) as Hname.
  unfold owner_app_name, field.
  destruct (assoc "application" amembers) as [application|]; [|exact Hname].
  destruct Hname as (app & -> & Hname). exact Hname.
Qed.

Lemma scans_loop_built_from a scans : forall results w rs w',
  scans_loop a scans results w = (Ok rs, w') ->
  exists produced,
    rs = results ++ concat produced /\ Forall2 (built_from a) scans produced.
Proof.
  induction scans as [|scan rest IH]; intros results w rs w'; simpl.
  - intros [= <- <-]. exists []. simpl. rewrite app_nil_r.
    split; [reflexivity|constructor].
  - unfold mbind at 1, M_bind, bind, scan_body.
    unfold mbind at 1, M_bind, bind, lift.
    destruct (scan_record a scan) as [[r|]|] eqn:Hrec; try discriminate.
    + run. intros Hloop. destruct (IH _ _ _ _ Hloop) as (produced & -> & Hall).
      exists ([r] :: produced). simpl. rewrite <- app_assoc.
      split; [reflexivity|]. constructor; [|exact Hall].
      unfold built_from. rewrite Hrec. reflexivity.
    + run. intros Hloop. destruct (IH _ _ _ _ Hloop) as (produced & -> & Hall).
      exists ([] :: produced). split; [reflexivity|].
      constructor; [|exact Hall]. unfold built_from. rewrite Hrec. reflexivity.
Qed.

Lemma built_from_application_name amembers a members out r :
  read_analysis (JObj amembers) = Ok a ->
  built_from a (JObj members) out ->
  assoc "application_name" members = None ->
  r ∈ out ->
  application_name r = owner_app_name amembers.
Proof.
  intros Hread Hbuilt Hnone Hin. unfold built_from in Hbuilt.
  destruct (scan_record a (JObj members)) as [[r'|]|] eqn:Hrec;
    [| |contradiction]; subst out.
  - apply list_elem_of_singleton in Hin. subst r'.
    rewrite (scan_record_fields _ _ _ Hrec). simpl.
    unfold field at 1. rewrite Hnone.
    apply read_analysis_owner_app_name, Hread.
  - apply elem_of_nil in Hin. contradiction.
Qed.

(** C5. When the scans listing of an analysis is fetched and the turn of the
    analyses loop returns, what it returns is the records it had followed
    by the records built from the scans of the listing, one scan after the
    other, and every record built from a scan that has no
    [application_name] key has for [application_name] the application name
    of that analysis: the [name] of its [application] object, and the
    literal "Unknown" when the analysis has no [application] or its
    [application] has no [name]. *)
Theorem application_name_falls_back_to_the_analysis
    srv amembers a body results w rs w' :
  read_analysis (JObj amembers) = Ok a ->
  srv (requests w) (scans_request (af_id a)) = HttpOk body ->
  truthy body = true ->
  analysis_body srv (JObj amembers) results w = (Ok rs, w') ->
  exists scans produced,
    listed_scans body = Ok scans /\
    rs = results ++ concat produced /\
    Forall2 (fun scan out =>
               built_from a scan out /\
               forall members r,
                 scan = JObj members ->
                 assoc "application_name" members = None ->
                 r ∈ out ->
                 application_name r = owner_app_name amembers)
            scans produced.
Proof.
  intros Hread Hanswer Hbody.
  unfold analysis_body, mbind at 1, M_bind, bind, lift. rewrite Hread.
  unfold mbind at 1, M_bind, bind. rewrite print_printed. cbv beta iota.
  unfold mbind at 1, M_bind, bind.
  match goal with
  | |- context [get_analysis_scans srv ?id ?w0] =>
      rewrite (get_analysis_scans_ok srv id w0 body Hanswer)
  end.
  unfold use_scans_response, listed_scans. rewrite Hbody. simpl.
  unfold mbind, M_bind, bind, lift, pyresult_bind, rbind.
  destruct (embedded_items body "scans") as [s|]; [|discriminate].
  destruct (py_iter s) as [scans|]; [|discriminate].
  intros Hloop. destruct (scans_loop_built_from _ _ _ _ _ _ Hloop)
    as (produced & -> & Hall).
  exists scans, produced. split; [reflexivity|]. split; [reflexivity|].
  eapply Forall2_impl; [exact Hall|].
  intros scan out Hbuilt. split; [exact Hbuilt|].
  intros members r -> Hnone Hin.
  eapply built_from_application_name; eassumption.
Qed.

Lemma application_name_falls_back_to_the_analysis_witness :
  exists scans produced,
    listed_scans (Scenario.page "scans" [Scenario.shop_scan; Scenario.bare_scan])
    = Ok scans /\
    [Scenario.shop_record] = [] ++ concat produced /\
    Forall2 (fun scan out =>
               built_from Scenario.shop_fields scan out /\
               forall members r,
                 scan = JObj members ->
                 assoc "application_name" members = None ->
                 r ∈ out ->
                 application_name r
                 = owner_app_name
                     [("analysis_id", JStr "A1"); ("name", JStr "App Scan");
                      ("application", JObj [("name", JStr "Shop")])])
            scans produced.
Proof.
  apply (application_name_falls_back_to_the_analysis Scenario.shop_server
           [("analysis_id", JStr "A1"); ("name", JStr "App Scan");
            ("application", JObj [("name", JStr "Shop")])]
           Scenario.shop_fields
           (Scenario.page "scans" [Scenario.shop_scan; Scenario.bare_scan])
           [] (start ∅) [Scenario.shop_record]
           (snd (analysis_body Scenario.shop_server
                   (Scenario.analysis "A1" "App Scan" "Shop") [] (start ∅)))).
  - reflexivity.
  - reflexivity.
  - reflexivity.
  - reflexivity.
Defined.

(** The same turn for an analysis without an [application], and for one
    whose [application] has no [name]: the record names "Unknown". *)
Lemma application_name_unknown_twice :
  owner_app_name [("analysis_id", JStr "A9")] = JStr "Unknown" /\
  owner_app_name [("analysis_id", JStr "A9"); ("application", JObj [])]
  = JStr "Unknown" /\
  Forall (fun analysis =>
            fst (analysis_body Scenario.one_scan_server analysis [] (start ∅))
            = Ok [mkResult (JStr "A9") (JStr "Unknown") (JStr "Unknown")
                    (JStr "S1") (JStr "N/A") (JStr "https://shop.example.com")
                    (JStr "Unknown") (JStr "Unknown") (JStr "Unknown")])
         [JObj [("analysis_id", JStr "A9")];
          JObj [("analysis_id", JStr "A9"); ("application", JObj [])]].
Proof. repeat split; repeat constructor. Qed.
